(** * Embeddings-for-code-diffs: a shallow embedding of the dataset,
      batching, encoder and loss bookkeeping, with the properties the
      specification states about them.

    Python values are modelled as follows.
    - [str] is a list of Unicode code points ([N]); [str_of] turns a Rocq
      string literal into one.
    - a tensor of rank [k] is a [k]-fold nested [list]; integer tensors hold
      [Z], boolean tensors hold [bool]; the element type of an embedding
      tensor is a parameter, since the code never computes on it.
    - [None] / a raised exception is [None] in [option].
    - the deep-learning library, the repository miner and the file system
      are parameters of the sections that use them. *)

From Stdlib Require Import Strings.String Strings.Ascii.
From stdpp Require Import base tactics option list numbers sorting.

Set Default Proof Using "Type".

(** ** Python built-ins used by the sources *)
Module Py.

Definition str : Type := list N.

Definition str_of (s : string) : str :=
  map N_of_ascii (list_ascii_of_string s).

(** The line boundaries of [str.splitlines]. *)
Definition line_boundaries : list N :=
  [10; 11; 12; 13; 28; 29; 30; 133; 8232; 8233]%N.

Definition is_linebreak (c : N) : bool :=
  existsb (N.eqb c) line_boundaries.

(** [s.splitlines(keepends=False)]: [cur] is the current line, reversed.
    A carriage return directly followed by a line feed is one boundary;
    no empty line is produced after a final boundary. *)
Fixpoint splitlines_from (cur : str) (s : str) : list str :=
  match s with
  | [] => match cur with [] => [] | _ :: _ => [rev cur] end
  | c :: rest =>
      if is_linebreak c then
        if N.eqb c 13 then
          match rest with
          | c' :: rest' =>
              if N.eqb c' 10 then rev cur :: splitlines_from [] rest'
              else rev cur :: splitlines_from [] rest
          | [] => rev cur :: splitlines_from [] rest
          end
        else rev cur :: splitlines_from [] rest
      else splitlines_from (c :: cur) rest
  end.

Definition splitlines (s : str) : list str := splitlines_from [] s.

Fixpoint startswith (s p : str) : bool :=
  match p, s with
  | [], _ => true
  | _ :: _, [] => false
  | a :: p', b :: s' => N.eqb a b && startswith s' p'
  end.

(** [s.split(sep)] for a non-empty separator: [skip] counts the characters
    of a matched separator that are still to be consumed. *)
Fixpoint split_from (sep : str) (skip : nat) (cur : str) (s : str) : list str :=
  match s with
  | [] => [rev cur]
  | c :: rest =>
      match skip with
      | S k => split_from sep k cur rest
      | O =>
          if startswith s sep
          then rev cur :: split_from sep (length sep - 1) [] rest
          else split_from sep 0 (c :: cur) rest
      end
  end.

(** [None] is the [ValueError] raised for an empty separator. *)
Definition split (s sep : str) : option (list str) :=
  match sep with
  | [] => None
  | _ :: _ => Some (split_from sep 0 [] s)
  end.

(** [l[::2]] and [l[1::2]]. *)
Fixpoint slice_step2 {A} (l : list A) : list A :=
  match l with
  | [] => []
  | x :: rest => x :: match rest with [] => [] | _ :: rest' => slice_step2 rest' end
  end.

Definition slice_from1_step2 {A} (l : list A) : list A := slice_step2 (tail l).

(** Truthiness of an [Optional[bool]]. *)
Definition truthy (b : option bool) : bool :=
  match b with Some true => true | _ => false end.

(** [sep in s]: some suffix of [s] starts with [sep]. *)
Fixpoint contains (s sep : str) : bool :=
  startswith s sep
  || match s with
     | [] => false
     | _ :: rest => contains rest sep
     end.

End Py.

(** ** datasets/PatchNet/PatchNetDataset.py *)
Module PatchNetDataset.
Import Py.

(** [pydriller.ModificationType]. *)
Inductive ModificationType := ADD | COPY | RENAME | DELETE | MODIFY | UNKNOWN.

#[global] Instance ModificationType_eq_dec : EqDecision ModificationType.
Proof. solve_decision. Defined.

Definition is_MODIFY (t : ModificationType) : bool :=
  match t with MODIFY => true | _ => false end.

(** The fields of [pydriller.Modification] and [pydriller.Commit] that the
    dataset code reads. *)
Record Modification := { change_type : ModificationType; diff : str }.
Record PyCommit := { hash : str; modifications : list Modification }.

Definition MAX_DIFF_LENGTH : nat := 100.

Definition is_greater_than_max_number_of_lines_in_diff (commit : PyCommit) : bool :=
  let total_num_of_lines :=
    fold_left
      (fun total modification =>
         if is_MODIFY (change_type modification)
         then total + length (splitlines (diff modification))
         else total)
      (modifications commit) 0 in
  Nat.ltb MAX_DIFF_LENGTH total_num_of_lines.

Definition get_examples_text_lines (description_lines : list str) : list (str * str) :=
  zip (slice_step2 description_lines) (slice_from1_step2 description_lines).

Definition extract_commit_hash_field (example_text_data : str * str) : option str :=
  parts ← split (fst example_text_data) (str_of ": ");
  parts !! 1.

Section Mining.
(** The result of [generate_prev_and_updated] (a dictionary of token
    lists and a token counter), the counter operations, the repository
    miner, [distutils.util.strtobool] and the file system. *)
Context {PrevUpdated Counter : Type}.
Context (generate_prev_and_updated : PyCommit → PrevUpdated * Counter).
Context (counter_new : Counter) (counter_iadd : Counter → Counter → Counter).
Context (traverse_single : option str → str → list PyCommit).
Context (traverse_since_to : option str → list PyCommit).
Context (strtobool : str → option bool).
Context (read_text : str → option str).
Context (absolute : str → str).

(** [Commit]; its [prev_updated_generator] is a stateless helper object
    and is represented by the parameter [generate_prev_and_updated]. *)
Record Commit := {
  repository : option str;
  commit_hash : str;
  code : PrevUpdated * Counter
}.

Definition get_counter (c : Commit) : Counter := snd (code c).

(** [Commit.get_code]: without a mined commit the repository is
    traversed for the single hash and the first result is taken. *)
Definition get_code (repo : option str) (h : str) (commit : option PyCommit)
  : option (PrevUpdated * Counter) :=
  commit' ← match commit with
            | Some c => Some c
            | None => traverse_single repo h !! 0
            end;
  Some (generate_prev_and_updated commit').

Definition Commit_init (repo : option str) (h : str) (commit : option PyCommit)
  : option Commit :=
  cd ← get_code repo h commit;
  Some {| repository := repo; commit_hash := h; code := cd |}.

Record DataSample := {
  commit : Commit;
  stable : option bool;
  idx : nat
}.

Definition extract_stable_field (example_text_data : str * str) : option bool :=
  parts ← split (snd example_text_data) (str_of ": ");
  field ← parts !! 1;
  strtobool field.

Definition get_examples_text_data (description_filepath : str)
  : option (list (str * str)) :=
  text ← read_text description_filepath;
  Some (get_examples_text_lines (splitlines text)).

(** The loop of [extract_data_samples], from index [i] on. *)
Fixpoint extract_data_samples_loop (repository_path : option str) (i : nat)
    (examples : list (str * str)) (data_samples : list DataSample)
    (counter : Counter) : option (list DataSample * Counter) :=
  match examples with
  | [] => Some (data_samples, counter)
  | example_text_data :: rest =>
      h ← extract_commit_hash_field example_text_data;
      st ← extract_stable_field example_text_data;
      c ← Commit_init repository_path h None;
      extract_data_samples_loop repository_path (S i) rest
        (data_samples ++ [{| commit := c; stable := Some st; idx := i |}])
        (counter_iadd counter (get_counter c))
  end.

Definition extract_data_samples (description_filepath : str)
    (repository_path : option str) : option (list DataSample * Counter) :=
  examples_text_data ← get_examples_text_data description_filepath;
  extract_data_samples_loop repository_path 0 examples_text_data [] counter_new.

(** The body of the loop of [extract_data_samples_for_pre_train] for the
    commit at position [ic.1]: the sample that is appended, or [None] when
    the commit is skipped. *)
Definition pre_train_sample (repository_path : option str)
    (ic : nat * PyCommit) : option DataSample :=
  if is_greater_than_max_number_of_lines_in_diff ic.2 then None
  else Some {| commit := {| repository := repository_path;
                            commit_hash := hash ic.2;
                            code := generate_prev_and_updated ic.2 |};
               stable := Some false;
               idx := ic.1 |}.

(** The loop of [extract_data_samples_for_pre_train], from index [i] on;
    [continue] skips a commit but not its index. *)
Fixpoint pre_train_loop (repository_path : option str) (i : nat)
    (commits : list PyCommit) (data_samples : list DataSample)
    (counter : Counter) : option (list DataSample * Counter) :=
  match commits with
  | [] => Some (data_samples, counter)
  | py_commit :: rest =>
      if is_greater_than_max_number_of_lines_in_diff py_commit
      then pre_train_loop repository_path (S i) rest data_samples counter
      else
        c ← Commit_init repository_path (hash py_commit) (Some py_commit);
        pre_train_loop repository_path (S i) rest
          (data_samples ++ [{| commit := c; stable := Some false; idx := i |}])
          (counter_iadd counter (get_counter c))
  end.

Definition extract_data_samples_for_pre_train (repository_path : option str)
  : option (list DataSample * Counter) :=
  pre_train_loop repository_path 0 (traverse_since_to repository_path) [] counter_new.

Record t := {
  root : str;
  description_filepath : option str;
  repository_path : option str;
  data_samples : list DataSample;
  tokens_counter : Counter
}.

Definition init (root_ : str) (description_filepath_ : option str)
    (linux_repository_filepath : option str) : option t :=
  let repository_path_ := absolute <$> linux_repository_filepath in
  '(samples, counter) ←
    match description_filepath_ with
    | Some p => extract_data_samples p repository_path_
    | None => extract_data_samples_for_pre_train repository_path_
    end;
  Some {| root := root_;
          description_filepath := description_filepath_;
          repository_path := repository_path_;
          data_samples := samples;
          tokens_counter := counter |}.

Definition get_stable_patches (self : t) : list DataSample :=
  List.filter (fun data_sample => truthy (stable data_sample)) (data_samples self).

Definition get_unstable_patches (self : t) : list DataSample :=
  List.filter (fun data_sample => negb (truthy (stable data_sample))) (data_samples self).

(** What a sample of the description file records about its pair of
    lines. *)
Definition sample_of_pair (repository_path : option str) (e : str * str)
    (d : DataSample) : Prop :=
  extract_commit_hash_field e = Some (commit_hash (commit d))
  ∧ extract_stable_field e = stable d
  ∧ stable d ≠ None
  ∧ repository (commit d) = repository_path
  ∧ ∃ mined, traverse_single repository_path (commit_hash (commit d)) !! 0 = Some mined
             ∧ code (commit d) = generate_prev_and_updated mined.

(** A pair of lines the extraction cannot use: a field is missing, the
    flag is not understood, or no commit is mined for the hash. *)
Definition unusable_pair (repository_path : option str) (e : str * str) : Prop :=
  extract_commit_hash_field e = None
  ∨ extract_stable_field e = None
  ∨ ∃ h, extract_commit_hash_field e = Some h
         ∧ traverse_single repository_path h = [].

End Mining.

Section Statistics.
(** [Ratio] is the type of the printed shares and [round4 a b] stands for
    [round(a / b, 4)] with [b] non-zero. A printed line is kept as the
    numbers it shows. *)
Context {PrevUpdated Counter Ratio : Type}.
Context (round4 : nat → nat → Ratio).

Inductive StatLine :=
  | DatasetSize (n : nat)
  | StableSamples (n : nat) (share : Ratio)
  | UnstableSamples (n : nat) (share : Ratio).

(** [print_statistics]: the lines printed, and [None] when the division by
    the dataset size raises [ZeroDivisionError]; the f-string of the second
    line is evaluated before anything of that line is printed. *)
Definition print_statistics (self : @t PrevUpdated Counter)
  : list StatLine * option unit :=
  let size := length (data_samples self) in
  let printed := [DatasetSize size] in
  let stable_patches := get_stable_patches self in
  let unstable_patches := get_unstable_patches self in
  match size with
  | O => (printed, None)
  | S _ =>
      (printed
       ++ [StableSamples (length stable_patches) (round4 (length stable_patches) size)]
       ++ [UnstableSamples (length unstable_patches)
             (round4 (length unstable_patches) size)],
       Some tt)
  end.

End Statistics.

End PatchNetDataset.

(** ** Tensor operations of the deep-learning library used by the sources *)
Module Torch.

(** [t[idx]] with an index tensor, on the first dimension; an index out of
    range raises. *)
Definition index_select {A} (t : list A) (index : list nat) : option (list A) :=
  mapM (fun i => t !! i) index.

(** [t[:, idx, :]]. *)
Definition index_select_dim1 {A} (t : list (list A)) (index : list nat)
  : option (list (list A)) :=
  mapM (fun layer => index_select layer index) t.

(** [torch.cat([a, b], dim=2)] of two rank-3 tensors: the sizes of the
    first two dimensions have to agree. *)
Definition cat_dim2 {A} (a b : list (list (list A))) : option (list (list (list A))) :=
  if decide (Forall2 (fun r s => length r = length s) a b)
  then Some (zip_with (zip_with app) a b)
  else None.

Definition key_le (p q : nat * nat) : Prop := p.1 ≤ q.1.

#[global] Instance key_le_dec : RelDecision key_le :=
  fun p q => decide (p.1 ≤ q.1).

(** [torch.argsort] of a tensor of indices: the positions, ordered by
    ascending value. *)
Definition argsort (t : list nat) : list nat :=
  (merge_sort key_le (zip t (seq 0 (length t)))).*2.

(** [(t != v)] on an integer matrix, [.unsqueeze(-2)] on a matrix, and
    [.sum()] of a boolean matrix. *)
Definition ne (t : list (list Z)) (v : Z) : list (list bool) :=
  map (map (fun a => negb (Z.eqb a v))) t.

Definition unsqueeze_m2 {A} (t : list (list A)) : list (list (list A)) :=
  map (fun row => [row]) t.

Definition sum_bool (t : list (list bool)) : nat :=
  sum_list (map (fun b : bool => if b then 1 else 0) (concat t)).

(** [t[i][j]] and [t[i][j][k]]; [None] out of range. *)
Definition at2 {A} (t : list (list A)) (i j : nat) : option A :=
  row ← t !! i; row !! j.


(** A rank-3 tensor of shape [[d0, d1, d2]]. *)
Definition has_shape3 {A} (t : list (list (list A))) (d0 d1 d2 : nat) : Prop :=
  length t = d0
  ∧ Forall (fun m => length m = d1 ∧ Forall (fun r => length r = d2) m) t.

(** [.cuda()] moves a tensor to another device and keeps its value. *)
Definition cuda {A} (t : A) : A := t.

End Torch.

(** ** neural_editor/seq2seq/Batch.py *)
Module Batch.
Import Torch.

Record t := {
  diff_alignment : list (list Z);
  diff_alignment_lengths : list Z;
  diff_alignment_mask : list (list (list bool));
  diff_prev : list (list Z);
  diff_prev_lengths : list Z;
  diff_prev_mask : list (list (list bool));
  diff_updated : list (list Z);
  diff_updated_lengths : list Z;
  diff_updated_mask : list (list (list bool));
  src : list (list Z);
  src_lengths : list Z;
  src_mask : list (list (list bool));
  nseqs : nat;
  trg : option (list (list Z));
  trg_y : option (list (list Z));
  trg_mask : option (list (list bool));
  trg_lengths : option (list Z);
  ntokens : option nat
}.

(** [Batch.__init__]; [USE_CUDA] is [CONFIG['USE_CUDA']]. *)
Definition init (USE_CUDA : bool)
    (src_ : list (list Z) * list Z) (trg_ : option (list (list Z) * list Z))
    (diff_alignment_ diff_prev_ diff_updated_ : list (list Z) * list Z)
    (pad_index : Z) : t :=
  let '(src0, src_lengths0) := src_ in
  let '(da, da_lengths) := diff_alignment_ in
  let '(dp, dp_lengths) := diff_prev_ in
  let '(du, du_lengths) := diff_updated_ in
  let src_mask0 := unsqueeze_m2 (ne src0 pad_index) in
  let trg0 := (fun tl => map (fun row => removelast row) tl.1) <$> trg_ in
  let trg_y0 := (fun tl => map (fun row => tail row) tl.1) <$> trg_ in
  let trg_mask0 := (fun y => ne y pad_index) <$> trg_y0 in
  {| diff_alignment := da;
     diff_alignment_lengths := da_lengths;
     diff_alignment_mask := unsqueeze_m2 (ne da pad_index);
     diff_prev := dp;
     diff_prev_lengths := dp_lengths;
     diff_prev_mask := unsqueeze_m2 (ne dp pad_index);
     diff_updated := du;
     diff_updated_lengths := du_lengths;
     diff_updated_mask := unsqueeze_m2 (ne du pad_index);
     src := if USE_CUDA then cuda src0 else src0;
     src_lengths := src_lengths0;
     src_mask := if USE_CUDA then cuda src_mask0 else src_mask0;
     nseqs := length src0;
     trg := if USE_CUDA then cuda <$> trg0 else trg0;
     trg_y := if USE_CUDA then cuda <$> trg_y0 else trg_y0;
     trg_mask := if USE_CUDA then cuda <$> trg_mask0 else trg_mask0;
     trg_lengths := snd <$> trg_;
     ntokens := (fun y => sum_bool (ne y pad_index)) <$> trg_y0 |}.

End Batch.

(** ** neural_editor/seq2seq/encoder/Encoder.py *)
Module Encoder.
Import Py Torch.

Section Forward.
(** [F] is the element type of embeddings and states, [Packed] the
    packed-sequence type. [rnn] is the bidirectional LSTM of the encoder
    for fixed weights and dropout masks; it returns the packed output
    and the raw final states [h_n], [c_n] of shape
    [NumLayers * 2, B, H]. [torch_sort] is
    [torch.sort(_, descending=True)]: the sorted values and the
    positions they came from. *)
Context {F Packed : Type}.
Context (pack_padded_sequence : list (list (list F)) → list Z → option Packed).
Context (rnn : Packed → option (Packed * (list (list (list F)) * list (list (list F))))).
Context (pad_packed_sequence : Packed → list (list (list F)) * list Z).
Context (torch_sort : list Z → list Z * list nat).

Definition Result : Type :=
  list (list (list F)) * (list (list (list F)) * list (list (list F))).

(** The manual concatenation of the final states of both directions. *)
Definition concat_directions (h_n : list (list (list F)))
  : option (list (list (list F))) :=
  let fwd_final := slice_step2 h_n in
  let bwd_final := slice_from1_step2 h_n in
  cat_dim2 fwd_final bwd_final.

Definition forward (x : list (list (list F))) (mask : list (list (list bool)))
    (lengths : list Z) (sort : bool) : option Result :=
  if sort then
    let '(lengths, lengths_mask) := torch_sort lengths in
    x ← index_select x lengths_mask;
    packed ← pack_padded_sequence x lengths;
    '(output, (h_n, c_n)) ← rnn packed;
    let '(output, _) := pad_packed_sequence output in
    h_n ← concat_directions h_n;
    c_n ← concat_directions c_n;
    let lengths_mask_reverse := argsort lengths_mask in
    output ← index_select output lengths_mask_reverse;
    h_n ← index_select_dim1 h_n lengths_mask_reverse;
    c_n ← index_select_dim1 c_n lengths_mask_reverse;
    Some (output, (h_n, c_n))
  else
    packed ← pack_padded_sequence x lengths;
    '(output, (h_n, c_n)) ← rnn packed;
    let '(output, _) := pad_packed_sequence output in
    h_n ← concat_directions h_n;
    c_n ← concat_directions c_n;
    Some (output, (h_n, c_n)).

(** The description the specification gives of the [sort=True] call, to be
    compared with [forward]: the position at which sequence [i] of the
    original batch sits in the sorted batch, the rows of a sorted result put
    back in the original order, and the call as "sort the batch by
    descending length, run the [sort=False] path, permute back". *)
Definition position_of (i : nat) (perm : list nat) : option nat :=
  fst <$> list_find (fun k => k = i) perm.

Definition restore_order {A} (perm : list nat) (rows : list A) : option (list A) :=
  mapM (fun i => j ← position_of i perm; rows !! j) (seq 0 (length perm)).

Definition forward_sorted_reference (x : list (list (list F)))
    (mask : list (list (list bool))) (lengths : list Z) : option Result :=
  let '(sorted_lengths, perm) := torch_sort lengths in
  x_sorted ← index_select x perm;
  '(output, (h_n, c_n)) ← forward x_sorted mask sorted_lengths false;
  output ← restore_order perm output;
  h_n ← mapM (restore_order perm) h_n;
  c_n ← mapM (restore_order perm) c_n;
  Some (output, (h_n, c_n)).

End Forward.

End Encoder.

(** ** neural_editor/seq2seq/ClassifierLossCompute.py *)
Module ClassifierLossCompute.

Inductive Event := EvBackward | EvStep | EvZeroGrad.

Section Loss.
(** [World] holds everything the training step can change: parameters,
    gradients and optimizer state. [to_float] is [y.float()], [item] is
    [loss.data.item()]. *)
Context {Tensor Loss Scalar Optimizer World : Type}.
Context (to_float : Tensor → Tensor).
Context (item : Loss → Scalar).
Context (backward : Loss → World → World).
Context (opt_step : Optimizer → World → World).
Context (opt_zero_grad : Optimizer → World → World).

Record State := { world : World; trace : list Event }.

Definition M (A : Type) : Type := State → A * State.
Definition ret {A} (a : A) : M A := fun s => (a, s).
Definition bind {A B} (m : M A) (k : A → M B) : M B :=
  fun s => let '(a, s') := m s in k a s'.

Definition effect (e : Event) (f : World → World) : M unit :=
  fun s => (tt, {| world := f (world s); trace := trace s ++ [e] |}).

Record t := {
  criterion : Tensor → Tensor → Loss;
  optimizer : option Optimizer
}.

Definition get_loss (self : t) (x y : Tensor) : M Loss :=
  ret (criterion self x (to_float y)).

Definition call (self : t) (x y : Tensor) : M Scalar :=
  bind (get_loss self x y) (fun loss =>
  bind (match optimizer self with
        | Some o =>
            bind (effect EvBackward (backward loss)) (fun _ =>
            bind (effect EvStep (opt_step o)) (fun _ =>
            effect EvZeroGrad (opt_zero_grad o)))
        | None => ret tt
        end) (fun _ =>
  ret (item loss))).

(** Successive calls on the batches of a loop, collecting the values. *)
Fixpoint call_each (self : t) (batches : list (Tensor * Tensor)) : M (list Scalar) :=
  match batches with
  | [] => ret []
  | (x, y) :: rest =>
      bind (call self x y) (fun l =>
      bind (call_each self rest) (fun ls =>
      ret (l :: ls)))
  end.

End Loss.

End ClassifierLossCompute.

(** ** neural_editor/seq2seq/experiments/AccuracyCalculation.py *)
Module AccuracyCalculation.
Import Py.

(** The fields of [torchtext.vocab.Vocab] that are read: [len(vocab)] is
    the length of [itos]. *)
Record Vocab := { itos : list str; stoi : str → nat; unk_index : nat }.

Record TargetField := { vocab : Vocab }.

Section Decode.
(** [Score] is the type of hypothesis scores with its order and
    [Strength] the type of the diversity strength.
    [extend_score model input unk_index num_groups diversity_strength
    prefix token] is the score under which [prefix] extended by [token] is
    ranked: it may depend on the unknown-token index, the number of groups
    and the diversity strength that the decoder is created with. *)
Context {Model Input Score Strength : Type}.
Context (score_le : relation Score) `{!RelDecision score_le}.
Context (extend_score
           : Model → Input → nat → nat → Strength → list nat → nat → Score).
Context (initial_score : Score).

Record Config := {
  PAD_TOKEN : str;
  SOS_TOKEN : str;
  EOS_TOKEN : str;
  BEAM_SIZE : nat;
  TOP_K : list nat;
  TOKENS_CODE_CHUNK_MAX_LEN : nat;
  NUM_GROUPS : nat;
  DIVERSITY_STRENGTH : Strength
}.

Record Partial := { tokens : list nat; score : Score }.

Definition better (a b : Partial) : Prop := score_le (score b) (score a).

#[global] Instance better_dec : RelDecision better :=
  fun a b => decide (score_le (score b) (score a)).

(** A partial hypothesis that starts with the start token and holds at most
    [m] tokens. *)
Definition started (sos_index m : nat) (h : Partial) : Prop :=
  head (tokens h) = Some sos_index ∧ length (tokens h) ≤ m.

(** A partial hypothesis in which the end token occurs at most as the last
    token. *)
Definition ends_at (eos_index : nat) (h : Partial) : Prop :=
  eos_index ∉ removelast (tokens h).

Definition finished (eos_index : nat) (h : Partial) : bool :=
  bool_decide (last (tokens h) = Some eos_index).

Section Search.
Context (model : Model) (input : Input).
Context (unk_index num_groups : nat) (diversity_strength : Strength).
Context (eos_index vocab_len beam_size : nat).

(** The continuations of one partial hypothesis by every token of the
    vocabulary; a hypothesis that ended in the end-of-sequence token is
    kept as it is. *)
Definition candidates (h : Partial) : list Partial :=
  if finished eos_index h then [h]
  else map (fun tok =>
              {| tokens := tokens h ++ [tok];
                 score := extend_score model input unk_index num_groups
                            diversity_strength (tokens h) tok |})
           (seq 0 vocab_len).

Definition ranked (beam : list Partial) : list Partial :=
  merge_sort better (beam ≫= candidates).

(** One generation step: the [beam_size] best candidates are retained. *)
Definition beam_step (beam : list Partial) : list Partial :=
  take beam_size (ranked beam).

(** Generation steps are made while some hypothesis has not ended, at most
    [num_iterations] of them. *)
Fixpoint beam_run (num_iterations : nat) (beam : list Partial) : list Partial :=
  match num_iterations with
  | O => beam
  | S n =>
      if forallb (finished eos_index) beam then beam
      else beam_run n (beam_step beam)
  end.

End Search.

(** Modelled from the spec: [create_decode_method] of
    [neural_editor.seq2seq.decoder.search], which is not among the
    sources. The glossary describes beam search as the decoding
    heuristic that retains the top-k partial hypotheses at each
    generation step; the decoder starts from the start-of-sequence
    token and stops a hypothesis at the end-of-sequence token. The spec
    does not say how the unknown-token index, the number of groups and the
    diversity strength enter: they are handed to the score under which the
    candidates are ranked. The verbosity flag concerns printing only. *)
Definition create_decode_method (model : Model) (num_iterations : nat)
    (sos_index eos_index unk_index vocab_len beam_size num_groups : nat)
    (diversity_strength : Strength) (verbose : bool) : Input → list Partial :=
  fun input =>
    beam_run model input unk_index num_groups diversity_strength
      eos_index vocab_len beam_size num_iterations
      [{| tokens := [sos_index]; score := initial_score |}].

Record t := {
  model_ : Model;
  trg_vocab : Vocab;
  pad_index : nat;
  eos_index_ : nat;
  config_ : Config;
  beam_size_ : nat;
  topk_values : list nat;
  beam_search : Input → list Partial
}.

Definition init (model : Model) (target_field : TargetField) (config : Config) : t :=
  let trg_vocab0 := vocab target_field in
  let pad_index0 := stoi trg_vocab0 (PAD_TOKEN config) in
  let sos_index := stoi trg_vocab0 (SOS_TOKEN config) in
  let eos_index0 := stoi trg_vocab0 (EOS_TOKEN config) in
  let beam_size0 := BEAM_SIZE config in
  let num_iterations := TOKENS_CODE_CHUNK_MAX_LEN config + 1 in
  {| model_ := model;
     trg_vocab := trg_vocab0;
     pad_index := pad_index0;
     eos_index_ := eos_index0;
     config_ := config;
     beam_size_ := beam_size0;
     topk_values := TOP_K config;
     beam_search :=
       create_decode_method model num_iterations sos_index eos_index0
         (unk_index trg_vocab0) (length (itos trg_vocab0)) beam_size0
         (NUM_GROUPS config) (DIVERSITY_STRENGTH config) false |}.

End Decode.

End AccuracyCalculation.

(** ** Effects of the scripts: state, completed operations, exceptions *)
Module Run.

Section Run.
(** [World] is everything outside the script (model, files, console);
    the trace lists the operations that completed. A computation returns
    [None] when an exception is raised, with the state reached so far. *)
Context {World Event : Type}.

Record State := { world : World; trace : list Event }.

Definition M (A : Type) : Type := State → option A * State.

Definition ret {A} (a : A) : M A := fun s => (Some a, s).

Definition raise {A} : M A := fun s => (None, s).

Definition bind {A B} (m : M A) (k : A → M B) : M B :=
  fun s =>
    match m s with
    | (Some a, s') => k a s'
    | (None, s') => (None, s')
    end.

Definition emit (e : Event) : M unit :=
  fun s => (Some tt, {| world := world s; trace := trace s ++ [e] |}).

(** A call into a library: it changes the world and is recorded when it
    returns. *)
Definition lift {A} (e : Event) (f : World → option (A * World)) : M A :=
  fun s =>
    match f (world s) with
    | Some (a, w) => (Some a, {| world := w; trace := trace s ++ [e] |})
    | None => (None, s)
    end.

Definition from_option {A} (o : option A) : M A :=
  match o with
  | Some a => ret a
  | None => raise
  end.

End Run.

End Run.

(** ** neural_editor/seq2seq/train.py *)
Module Train.
Import Run.

Inductive Event :=
  | TrainMode
  | TrainEpoch
  | EvalMode
  | PrintExamples (max_len : Z)
  | ValidationEpoch
  | TestEpoch
  | SaveModel (epoch : Z).

(** The keys of [CONFIG] that the loops read themselves. *)
Record Config := {
  MAX_NUM_OF_EPOCHS : Z;
  SAVE_MODEL_EVERY : Z;
  TOKENS_CODE_CHUNK_MAX_LEN : Z
}.

(** The epochs after which the model was saved, read off a trace. *)
Definition saved_epochs (events : list Event) : list Z :=
  omap (fun e => match e with SaveModel epoch => Some epoch | _ => None end) events.

Section Train.
(** [run_epoch_train], [run_epoch_val] and [run_epoch_test] are the calls of
    [run_epoch] on the rebatched iterators with the loss functions built
    for them, [print_examples] the call with its maximal length,
    [model_train] and [model_eval] the mode switches, [torch_save] the
    writing of [model.pt]. What is printed is left out. *)
Context {World Perplexity : Type}.
Context (run_epoch_train run_epoch_val run_epoch_test
           : World → option (Perplexity * World)).
Context (print_examples : Z → World → option (unit * World)).
Context (model_train model_eval : World → World).
Context (torch_save : World → option (unit * World)).

Definition mode (e : Event) (f : World → World) : M unit :=
  lift e (fun w => Some (tt, f w)).

(** [if epoch % CONFIG['SAVE_MODEL_EVERY'] == 0: torch.save(...)]; the
    remainder by zero raises. *)
Definition save_if_due (config : Config) (epoch : Z) : M unit :=
  if Z.eqb (SAVE_MODEL_EVERY config) 0 then raise
  else if Z.eqb (epoch mod SAVE_MODEL_EVERY config) 0
       then lift (SaveModel epoch) torch_save
       else ret tt.

(** The body of the loop over [range(epochs_num)], for the [remaining]
    epochs from [epoch] on. *)
Fixpoint epochs (config : Config) (epoch : Z) (remaining : nat)
    (train_perplexities val_perplexities : list Perplexity)
  : @M World Event (list Perplexity * list Perplexity) :=
  match remaining with
  | O => ret (train_perplexities, val_perplexities)
  | S remaining' =>
      bind (mode TrainMode model_train) (fun _ =>
      bind (lift TrainEpoch run_epoch_train) (fun train_perplexity =>
      bind (mode EvalMode model_eval) (fun _ =>
      bind (lift (PrintExamples (TOKENS_CODE_CHUNK_MAX_LEN config + 10))
              (print_examples (TOKENS_CODE_CHUNK_MAX_LEN config + 10))) (fun _ =>
      bind (lift ValidationEpoch run_epoch_val) (fun val_perplexity =>
      bind (save_if_due config epoch) (fun _ =>
      epochs config (epoch + 1) remaining'
        (train_perplexities ++ [train_perplexity])
        (val_perplexities ++ [val_perplexity])))))))
  end.

Definition train (config : Config)
  : @M World Event (list Perplexity * list Perplexity) :=
  epochs config 0 (Z.to_nat (MAX_NUM_OF_EPOCHS config)) [] [].

Definition test (config : Config) : @M World Event Perplexity :=
  bind (mode EvalMode model_eval) (fun _ =>
  bind (lift (PrintExamples (TOKENS_CODE_CHUNK_MAX_LEN config + 10))
          (print_examples (TOKENS_CODE_CHUNK_MAX_LEN config + 10))) (fun _ =>
  lift TestEpoch run_epoch_test)).

End Train.

End Train.

(** ** neural_editor/seq2seq/analyze.py *)
Module Analyze.
Import Py Run.

Definition usage : str :=
  str_of "arguments: <results_root_dir> <is_test (optional, default false)>.".

Definition neural_editor_banner : str :=
  [10%N] ++ str_of "====STARTING NEURAL EDITOR EVALUATION====" ++ [10%N].

Definition commit_msg_banner : str :=
  [10%N] ++ str_of "====STARTING COMMIT MSG GENERATOR EVALUATIONN====" ++ [10%N].

Section Analyze.
(** [joinpath] is [Path(_).joinpath(_)], [path_join] is [os.path.join],
    [load_config] and [torch_load] read files, and
    [test_neural_editor_model] runs the experiments. *)
Context {World Config Model : Type}.
Context (joinpath path_join : str → str → str).
Context (load_config : bool → str → World → option (Config * World)).
Context (torch_load : str → Config → World → option (Model * World)).
Context (test_neural_editor_model : Model → Config → World → option (unit * World)).

Inductive Event :=
  | Print (text : str)
  | PPrint (config : Config)
  | LoadConfig (is_test : bool) (config_path : str)
  | TorchLoad (path : str)
  | TestNeuralEditor.

Definition test_commit_message_generation_model (model : Model) (config : Config)
  : @M World Event unit :=
  ret tt.

Definition print_results (results_root : str) (config : Config)
  : @M World Event unit :=
  let editor_path :=
    path_join results_root (str_of "model_best_on_validation_neural_editor.pt") in
  let generator_path :=
    path_join results_root
      (str_of "model_best_on_validation_commit_msg_generator.pt") in
  bind (emit (PPrint config)) (fun _ =>
  bind (emit (Print neural_editor_banner)) (fun _ =>
  bind (lift (TorchLoad editor_path) (torch_load editor_path config))
    (fun neural_editor =>
  bind (lift TestNeuralEditor (test_neural_editor_model neural_editor config))
    (fun _ =>
  bind (emit (Print commit_msg_banner)) (fun _ =>
  bind (lift (TorchLoad generator_path) (torch_load generator_path config))
    (fun commit_msg_generator =>
  test_commit_message_generation_model commit_msg_generator config)))))).

(** [main], on [sys.argv]. *)
Definition main (argv : list str) : @M World Event unit :=
  bind (if bool_decide (length argv ≠ 3) && bool_decide (length argv ≠ 2)
        then emit (Print usage) else ret tt) (fun _ =>
  bind (from_option (argv !! 1)) (fun results_root_dir =>
  let is_test :=
    bool_decide (2 < length argv)
    && bool_decide (argv !! 2 = Some (str_of "test")) in
  let config_path := joinpath results_root_dir (str_of "config.pkl") in
  bind (lift (LoadConfig is_test config_path) (load_config is_test config_path))
    (fun config =>
  print_results results_root_dir config))).

End Analyze.

End Analyze.

(** ** Concrete inputs used in examples *)
Module Samples.
Import Py PatchNetDataset.

Definition newline : str := [10%N].

(** A diff of [n] lines. *)
Definition diff_of_lines (n : nat) : str :=
  mjoin (replicate n (str_of "+x" ++ newline)).

Definition long_modify : PyCommit :=
  {| hash := str_of "c0";
     modifications := [ {| change_type := MODIFY; diff := diff_of_lines 60 |};
                        {| change_type := ADD; diff := diff_of_lines 5 |};
                        {| change_type := MODIFY; diff := diff_of_lines 41 |} ] |}.

Definition long_add : PyCommit :=
  {| hash := str_of "c1";
     modifications := [ {| change_type := ADD; diff := diff_of_lines 300 |};
                        {| change_type := DELETE; diff := diff_of_lines 200 |} ] |}.

Definition modify_at_limit : PyCommit :=
  {| hash := str_of "c2";
     modifications := [ {| change_type := MODIFY; diff := diff_of_lines 100 |};
                        {| change_type := RENAME; diff := diff_of_lines 100 |} ] |}.

Definition mined : list PyCommit := [long_modify; long_add; modify_at_limit].

(** A miner without token information: the generator returns the hash. *)
Definition pre_train (commits : list PyCommit) :=
  extract_data_samples_for_pre_train (fun c => (hash c, 1)) 0 Nat.add
    (fun _ _ => []) (fun _ => commits) None.

Definition description : str :=
  str_of "commit: a1" ++ newline ++ str_of "stable: true" ++ newline
  ++ str_of "commit: b2".

(** A small encoder: embeddings are numbers, a packed sequence is the
    padded batch with its lengths, and packing rejects lengths that are not
    positive and descending. The raw final states have one layer and hidden
    size one: the forward state of a sequence is its first embedding entry,
    the backward state that entry plus 100, the cell states 1000 more. *)
Definition packed : Type := list (list (list nat)) * list Z.

Fixpoint descending (lengths : list Z) : bool :=
  match lengths with
  | [] => true
  | a :: rest =>
      match rest with
      | [] => true
      | b :: _ => bool_decide (b ≤ a)%Z && descending rest
      end
  end.

Definition pack (x : list (list (list nat))) (lengths : list Z) : option packed :=
  if forallb (fun n => bool_decide (0 < n)%Z) lengths && descending lengths
     && bool_decide (length lengths = length x)
  then Some (x, lengths) else None.

Definition first_entry (s : list (list nat)) : nat := hd 0 (hd [] s).

Definition lstm (p : packed)
  : option (packed * (list (list (list nat)) * list (list (list nat)))) :=
  Some (p,
        ([ map (fun s => [first_entry s]) p.1;
           map (fun s => [first_entry s + 100]) p.1 ],
         [ map (fun s => [first_entry s + 1000]) p.1;
           map (fun s => [first_entry s + 1100]) p.1 ])).

Definition unpack (p : packed) : list (list (list nat)) * list Z := p.

Definition value_ge (a b : Z * nat) : Prop := (b.1 ≤ a.1)%Z.

#[global] Instance value_ge_dec : RelDecision value_ge :=
  fun a b => decide (b.1 ≤ a.1)%Z.

Definition sort_descending (t : list Z) : list Z * list nat :=
  let sorted := merge_sort value_ge (zip t (seq 0 (length t))) in
  (sorted.*1, sorted.*2).

Definition encode := Encoder.forward pack lstm unpack sort_descending.

Definition embeddings : list (list (list nat)) :=
  [ [[1]; [0]; [0]]; [[2]; [2]; [2]]; [[3]; [3]; [0]] ].

Definition embedding_lengths : list Z := [1; 3; 2]%Z.

(** A vocabulary, a configuration and a scoring function for the accuracy
    experiment: scores are integers; the token [x] is preferred at the first
    step and the end token afterwards. *)
Definition words : list str :=
  [str_of "<unk>"; str_of "<pad>"; str_of "<s>"; str_of "</s>"; str_of "x"].

Definition vocabulary : AccuracyCalculation.Vocab :=
  {| AccuracyCalculation.itos := words;
     AccuracyCalculation.stoi :=
       fun w => default 0 (fst <$> list_find (fun w' => w' = w) words);
     AccuracyCalculation.unk_index := 0 |}.

Definition configuration : @AccuracyCalculation.Config Z :=
  {| AccuracyCalculation.PAD_TOKEN := str_of "<pad>";
     AccuracyCalculation.SOS_TOKEN := str_of "<s>";
     AccuracyCalculation.EOS_TOKEN := str_of "</s>";
     AccuracyCalculation.BEAM_SIZE := 2;
     AccuracyCalculation.TOP_K := [1; 2];
     AccuracyCalculation.TOKENS_CODE_CHUNK_MAX_LEN := 2;
     AccuracyCalculation.NUM_GROUPS := 1;
     AccuracyCalculation.DIVERSITY_STRENGTH := 0%Z |}.

Definition token_score (_ _ : unit) (_ _ : nat) (_ : Z)
    (prefix : list nat) (tok : nat) : Z :=
  let preference : Z :=
    match tok, length prefix with
    | 4, 1 => 9%Z
    | 3, 1 => 7%Z
    | 3, _ => 8%Z
    | 4, _ => 5%Z
    | _, _ => 0%Z
    end in
  (preference - Z.of_nat (length prefix))%Z.

Definition accuracy :=
  AccuracyCalculation.init Z.le token_score 0%Z tt
    {| AccuracyCalculation.vocab := vocabulary |} configuration.

(** A description-file dataset: a flag reader that knows [true] and
    [false] only, and a miner that finds one commit without modifications
    for every hash. *)
Definition read_flag (s : str) : option bool :=
  if bool_decide (s = str_of "true") then Some true
  else if bool_decide (s = str_of "false") then Some false
  else None.

Definition mine_single (_ : option str) (h : str) : list PyCommit :=
  [{| hash := h; modifications := [] |}].

Definition from_description (text : str) :=
  extract_data_samples (fun c => (hash c, 1)) 0 Nat.add mine_single read_flag
    (fun _ => Some text) (str_of "description.txt") None.

Definition broken_description : str :=
  str_of "commit: a1" ++ newline ++ str_of "stable: true" ++ newline
  ++ str_of "commit b2" ++ newline ++ str_of "stable: false".

(** A batch whose lengths are already in order. *)
Definition sorted_embeddings : list (list (list nat)) :=
  [ [[2]; [2]; [2]]; [[3]; [3]; [0]]; [[1]; [0]; [0]] ].

Definition sorted_lengths : list Z := [3; 2; 1]%Z.

(** A training run on a world that counts the epochs run: three epochs,
    a checkpoint every second epoch. *)
Definition training : Train.Config :=
  {| Train.MAX_NUM_OF_EPOCHS := 3;
     Train.SAVE_MODEL_EVERY := 2;
     Train.TOKENS_CODE_CHUNK_MAX_LEN := 5 |}.

Definition training_without_period : Train.Config :=
  {| Train.MAX_NUM_OF_EPOCHS := 3;
     Train.SAVE_MODEL_EVERY := 0;
     Train.TOKENS_CODE_CHUNK_MAX_LEN := 5 |}.

Definition run_training (config : Train.Config) :=
  Train.train (fun w : nat => Some (w, S w)) (fun w => Some (w + 100, w))
    (fun _ w => Some (tt, w)) (fun w => w) (fun w => w) (fun w => Some (tt, w))
    config {| Run.world := 0; Run.trace := [] |}.

(** An analysis run: the configuration is the test flag, a model is the
    path it was loaded from. *)
Definition slash (a b : str) : str := a ++ str_of "/" ++ b.

Definition analyze (argv : list str) :=
  Analyze.main (World := unit) (Config := bool) (Model := str) slash slash
    (fun is_test _ w => Some (is_test, w))
    (fun path _ w => Some (path, w))
    (fun _ _ w => Some (tt, w))
    argv {| Run.world := tt; Run.trace := [] |}.

End Samples.

(** * Properties *)

(** ** Slices with step two *)
Section SliceFacts.
Import Py.
Context {A : Type}.
Implicit Types l : list A.

Lemma list_pair_ind (P : list A → Prop) :
  P [] → (∀ x, P [x]) → (∀ x y l, P l → P (x :: y :: l)) → ∀ l, P l.
Proof.
  intros Hnil Hone Hstep l.
  cut (P l ∧ ∀ x, P (x :: l)); [tauto|].
  induction l as [|y l [IH1 IH2]]; split; auto.
Qed.

Lemma lookup_slice_step2 l i : slice_step2 l !! i = l !! (2 * i).
Proof.
  revert i. induction l as [| x | x y l IH] using list_pair_ind; intros i.
  - done.
  - destruct i as [|i]; [done|]. simpl. by replace (i + S (i + 0)) with (S (2 * i)) by lia.
  - destruct i as [|i]; [done|]. simpl slice_step2. rewrite lookup_cons_ne_0 by done.
    simpl Nat.pred. rewrite IH. by replace (2 * S i) with (S (S (2 * i))) by lia.
Qed.

Lemma lookup_slice_from1_step2 l i : slice_from1_step2 l !! i = l !! (2 * i + 1).
Proof.
  unfold slice_from1_step2. rewrite lookup_slice_step2.
  destruct l as [|x l]; simpl.
  - by rewrite !lookup_nil.
  - by replace (i + (i + 0) + 1) with (S (i + (i + 0))) by lia.
Qed.

Lemma length_slice_step2 l : length (slice_step2 l) = (length l + 1) / 2.
Proof.
  induction l as [| x | x y l IH] using list_pair_ind; [done..|].
  cbn [slice_step2 length]. rewrite IH.
  replace (S (S (length l)) + 1) with ((length l + 1) + 1 * 2) by lia.
  rewrite Nat.div_add by done. lia.
Qed.

Lemma length_slice_from1_step2 l : length (slice_from1_step2 l) = length l / 2.
Proof.
  unfold slice_from1_step2. rewrite length_slice_step2.
  destruct l as [|x l]; [done|]. simpl length. f_equal. lia.
Qed.

Lemma slice_step2_app_even l k :
  Nat.even (length l) = true → slice_step2 (l ++ k) = slice_step2 l ++ slice_step2 k.
Proof.
  induction l as [| x | x y l IH] using list_pair_ind; intros Hev; [done..|].
  simpl in Hev. cbn [app slice_step2]. by rewrite <- IH.
Qed.

End SliceFacts.

(** ** The description file: pairing of lines *)
Section ExamplesTextData.
Import Py PatchNetDataset.

Lemma lookup_get_examples_text_lines (lines : list str) i :
  get_examples_text_lines lines !! i
  = (a ← lines !! (2 * i); b ← lines !! (2 * i + 1); Some (a, b)).
Proof.
  unfold get_examples_text_lines.
  by rewrite lookup_zip_with, lookup_slice_step2, lookup_slice_from1_step2.
Qed.

Lemma length_get_examples_text_lines (lines : list str) :
  length (get_examples_text_lines lines) = length lines / 2.
Proof.
  unfold get_examples_text_lines.
  rewrite length_zip_with, length_slice_step2, length_slice_from1_step2.
  apply Nat.min_r, Nat.Div0.div_le_mono. lia.
Qed.

Lemma odd_length_snoc (lines : list str) :
  Nat.odd (length lines) = true →
  ∃ front final, lines = front ++ [final] ∧ Nat.even (length front) = true.
Proof.
  destruct lines as [|x l _] using rev_ind; [done|].
  intros Hodd. exists l, x. split; [done|].
  rewrite length_app in Hodd. simpl in Hodd.
  rewrite Nat.add_1_r, Nat.odd_succ in Hodd. done.
Qed.

Lemma get_examples_text_lines_snoc (front : list str) final :
  Nat.even (length front) = true →
  get_examples_text_lines (front ++ [final]) = get_examples_text_lines front.
Proof.
  intros Hev. apply Nat.even_spec in Hev as [k Hk].
  apply list_eq; intros i. rewrite !lookup_get_examples_text_lines.
  destruct (decide (2 * i + 1 < length front)) as [Hlt|Hge].
  - by rewrite !lookup_app_l by lia.
  - rewrite (lookup_ge_None_2 (front ++ [final]) (2 * i + 1))
      by (rewrite length_app; simpl; lia).
    rewrite (lookup_ge_None_2 front (2 * i + 1)) by lia.
    by destruct (_ !! (2 * i)), (front !! (2 * i)).
Qed.

Context (read_text : str → option str).

(** C10. A description file of [n] lines yields exactly [n / 2] pairs, the
    [i]-th being line [2 i] with line [2 i + 1]; for odd [n] the result is
    that of the file without its final line, whatever that line holds. *)
Theorem get_examples_text_data_pairs (description_filepath text : str) :
  read_text description_filepath = Some text →
  let lines := splitlines text in
  let n := length lines in
  ∃ pairs,
    get_examples_text_data read_text description_filepath = Some pairs
    ∧ length pairs = n / 2
    ∧ (∀ i, i < n / 2 →
         ∃ a b, lines !! (2 * i) = Some a ∧ lines !! (2 * i + 1) = Some b
                ∧ pairs !! i = Some (a, b))
    ∧ (Nat.odd n = true →
         pairs = get_examples_text_lines (removelast lines)
         ∧ ∀ final, get_examples_text_lines (removelast lines ++ [final]) = pairs).
Proof.
  intros Hread lines n.
  exists (get_examples_text_lines lines).
  split; [|split; [|split]].
  - unfold get_examples_text_data. by rewrite Hread.
  - apply length_get_examples_text_lines.
  - intros i Hi.
    assert (2 * i + 1 < n) as Hlt.
    { pose proof (Nat.Div0.mul_div_le n 2). lia. }
    destruct (lookup_lt_is_Some_2 lines (2 * i)) as [a Ha]; [fold n; lia|].
    destruct (lookup_lt_is_Some_2 lines (2 * i + 1)) as [b Hb]; [done|].
    exists a, b. split; [done|]. split; [done|].
    by rewrite lookup_get_examples_text_lines, Ha, Hb.
  - intros Hodd.
    destruct (odd_length_snoc lines Hodd) as (front & final & -> & Hev).
    split.
    + by rewrite removelast_last, get_examples_text_lines_snoc.
    + intros final'. by rewrite removelast_last, !get_examples_text_lines_snoc.
Qed.

End ExamplesTextData.

Lemma get_examples_text_data_pairs_witness :
  length <$> PatchNetDataset.get_examples_text_data
               (fun _ => Some Samples.description) (Py.str_of "description.txt")
  = Some 1.
Proof.
  destruct (get_examples_text_data_pairs (fun _ => Some Samples.description)
              (Py.str_of "description.txt") Samples.description eq_refl)
    as (pairs & -> & Hlen & _).
  simpl. f_equal. exact Hlen.
Defined.

(** ** The dataset: length filter, stable and unstable patches *)
Section DatasetFacts.
Import Py PatchNetDataset.

(** The loop of [is_greater_than_max_number_of_lines_in_diff] sums the
    number of diff lines of the modifications of type [MODIFY]. *)
Lemma fold_modify_lines (mods : list Modification) (acc : nat) :
  fold_left
    (fun total modification =>
       if is_MODIFY (change_type modification)
       then total + length (splitlines (diff modification))
       else total) mods acc
  = acc + sum_list ((fun m => length (splitlines (diff m)))
                      <$> filter (fun m => change_type m = MODIFY) mods).
Proof.
  revert acc. induction mods as [|m mods IH]; intros acc; simpl; [lia|].
  rewrite IH, filter_cons.
  destruct (decide (change_type m = MODIFY)) as [Heq|Hne].
  - rewrite Heq. csimpl. lia.
  - destruct (change_type m); simpl; try done; lia.
Qed.

Lemma is_greater_than_max_spec (c : PyCommit) :
  is_greater_than_max_number_of_lines_in_diff c = true
  ↔ 100 < sum_list ((fun m => length (splitlines (diff m)))
                      <$> filter (fun m => change_type m = MODIFY) (modifications c)).
Proof.
  unfold is_greater_than_max_number_of_lines_in_diff.
  rewrite fold_modify_lines, Nat.ltb_lt. unfold MAX_DIFF_LENGTH. lia.
Qed.

Context {PrevUpdated Counter : Type}.
Context (generate_prev_and_updated : PyCommit → PrevUpdated * Counter).
Context (counter_new : Counter) (counter_iadd : Counter → Counter → Counter).
Context (traverse_single : option str → str → list PyCommit).
Context (traverse_since_to : option str → list PyCommit).
Context (strtobool : str → option bool).
Context (read_text : str → option str).
Context (absolute : str → str).

Local Abbreviation DataSample := (@DataSample PrevUpdated Counter).
Local Abbreviation Dataset := (@PatchNetDataset.t PrevUpdated Counter).

Lemma pre_train_loop_spec repository_path commits i acc counter :
  ∃ counter',
    pre_train_loop generate_prev_and_updated counter_iadd traverse_single
      repository_path i commits acc counter
    = Some (acc ++ omap (pre_train_sample generate_prev_and_updated repository_path)
                     (zip (seq i (length commits)) commits), counter').
Proof.
  revert i acc counter.
  induction commits as [|c commits IH]; intros i acc counter; simpl.
  - exists counter. by rewrite app_nil_r.
  - unfold pre_train_sample at 1. simpl.
    destruct (is_greater_than_max_number_of_lines_in_diff c); simpl.
    + apply IH.
    + destruct (IH (S i) (acc ++ [{|
          commit := {| repository := repository_path; commit_hash := hash c;
                       code := generate_prev_and_updated c |};
          stable := Some false; idx := i |}])
        (counter_iadd counter (get_counter {| repository := repository_path;
            commit_hash := hash c; code := generate_prev_and_updated c |})))
        as [counter' ->].
      exists counter'. by rewrite <- app_assoc.
Qed.

Lemma extract_data_samples_for_pre_train_spec repository_path :
  ∃ counter,
    extract_data_samples_for_pre_train generate_prev_and_updated counter_new
      counter_iadd traverse_single traverse_since_to repository_path
    = Some (omap (pre_train_sample generate_prev_and_updated repository_path)
              (zip (seq 0 (length (traverse_since_to repository_path)))
                 (traverse_since_to repository_path)), counter).
Proof.
  unfold extract_data_samples_for_pre_train.
  destruct (pre_train_loop_spec repository_path
              (traverse_since_to repository_path) 0 [] counter_new) as [c ->].
  by exists c.
Qed.

Lemma elem_of_pre_train_samples repository_path (commits : list PyCommit)
    (d : DataSample) :
  d ∈ omap (pre_train_sample generate_prev_and_updated repository_path) (zip (seq 0 (length commits)) commits)
  ↔ ∃ c, commits !! idx d = Some c
         ∧ pre_train_sample generate_prev_and_updated repository_path (idx d, c) = Some d.
Proof.
  rewrite list_elem_of_omap. split.
  - intros ([i c] & Hin & Hs).
    apply list_elem_of_lookup in Hin as [j Hj].
    apply lookup_zip_with_Some in Hj as (i' & c' & Heq & Hi & Hc).
    apply lookup_seq in Hi as [-> _]. simplify_eq/=.
    assert (idx d = j) as ->.
    { unfold pre_train_sample in Hs. simpl in Hs.
      destruct (is_greater_than_max_number_of_lines_in_diff c'); [done|].
      by simplify_eq/=. }
    eauto.
  - intros (c & Hc & Hs). exists (idx d, c). split; [|done].
    apply list_elem_of_lookup. exists (idx d).
    apply lookup_zip_with_Some. exists (idx d), c. repeat split; [|done].
    apply lookup_seq. split; [done|]. by eapply lookup_lt_Some.
Qed.

Lemma pre_train_sample_Some repository_path i c (d : DataSample) :
  pre_train_sample generate_prev_and_updated repository_path (i, c) = Some d →
  is_greater_than_max_number_of_lines_in_diff c = false
  ∧ idx d = i ∧ stable d = Some false ∧ commit_hash (commit d) = hash c.
Proof.
  unfold pre_train_sample. simpl.
  destruct (is_greater_than_max_number_of_lines_in_diff c); [done|].
  intros [= <-]. done.
Qed.

(** C5. A mined commit is left out of the pre-training samples exactly when
    the diff lines of its modifications of type [MODIFY] sum to more than
    [MAX_DIFF_LENGTH = 100]; the sample of a kept commit carries its hash,
    and a commit without any modification of type [MODIFY] is kept whatever
    the length of its diffs. *)
Theorem pre_train_excludes_long_modify_diffs repository_path i c :
  traverse_since_to repository_path !! i = Some c →
  ∃ samples counter,
    extract_data_samples_for_pre_train generate_prev_and_updated counter_new
      counter_iadd traverse_single traverse_since_to repository_path
    = Some (samples, counter)
    ∧ MAX_DIFF_LENGTH = 100
    ∧ ((¬ ∃ d, d ∈ samples ∧ idx d = i)
       ↔ MAX_DIFF_LENGTH
         < sum_list ((fun m => length (splitlines (diff m)))
                       <$> filter (fun m => change_type m = MODIFY) (modifications c)))
    ∧ (∀ d, d ∈ samples → idx d = i → commit_hash (commit d) = hash c)
    ∧ (Forall (fun m => change_type m ≠ MODIFY) (modifications c) →
       ∃ d, d ∈ samples ∧ idx d = i).
Proof.
  intros Hc.
  destruct (extract_data_samples_for_pre_train_spec repository_path) as [counter Hrun].
  eexists _, counter. split; [exact Hrun|]. split; [done|].
  assert (is_greater_than_max_number_of_lines_in_diff c = false
          → ∃ d : DataSample,
              d ∈ omap (pre_train_sample generate_prev_and_updated repository_path)
                    (zip (seq 0 (length (traverse_since_to repository_path)))
                       (traverse_since_to repository_path))
              ∧ idx d = i) as Hkept.
  { intros Hsmall.
    eexists {| commit := _; stable := Some false; idx := i |}. split; [|done].
    apply elem_of_pre_train_samples. exists c. split; [done|].
    unfold pre_train_sample. simpl. by rewrite Hsmall. }
  split; [|split].
  - rewrite <- (is_greater_than_max_spec c). split.
    + intros Hnone.
      destruct (is_greater_than_max_number_of_lines_in_diff c); [done|].
      destruct Hnone. by apply Hkept.
    + intros Hlong (d & Hd & <-).
      apply elem_of_pre_train_samples in Hd as (c' & Hc' & Hs).
      rewrite Hc in Hc'. injection Hc' as <-.
      apply pre_train_sample_Some in Hs as [Hs _]. congruence.
  - intros d Hd <-.
    apply elem_of_pre_train_samples in Hd as (c' & Hc' & Hs).
    rewrite Hc in Hc'. injection Hc' as <-.
    by apply pre_train_sample_Some in Hs as (_ & _ & _ & ?).
  - intros Hno. apply Hkept.
    apply not_true_is_false. rewrite is_greater_than_max_spec.
    replace (filter _ _) with (@nil Modification); [simpl; lia|].
    symmetry. induction Hno as [|m mods Hm _ IH]; [done|].
    rewrite filter_cons. by destruct (decide (change_type m = MODIFY)).
Qed.

Lemma filter_bool_sublist {A} (f : A → bool) (l : list A) :
  sublist (List.filter f l) l.
Proof.
  induction l as [|x l IH]; simpl; [constructor|].
  destruct (f x); by constructor.
Qed.

Lemma filter_bool_partition {A} (f : A → bool) (l : list A) :
  List.filter f l ++ List.filter (fun x => negb (f x)) l ≡ₚ l.
Proof.
  induction l as [|x l IH]; simpl; [done|].
  destruct (f x); simpl.
  - by rewrite IH.
  - by rewrite <- Permutation_middle, IH.
Qed.

Lemma elem_of_filter_bool {A} (f : A → bool) (l : list A) x :
  x ∈ List.filter f l ↔ x ∈ l ∧ f x = true.
Proof. rewrite !list_elem_of_In. apply filter_In. Qed.

Lemma truthy_true (b : option bool) : truthy b = true ↔ b = Some true.
Proof. destruct b as [[]|]; simpl; split; congruence. Qed.

(** C7. [get_stable_patches] returns the samples whose [stable] field is
    true, [get_unstable_patches] those whose field is not, both in dataset
    order; the two lists partition [data_samples]. *)
Theorem stable_unstable_partition (self : Dataset) :
  (∀ d, d ∈ get_stable_patches self ↔ d ∈ data_samples self ∧ stable d = Some true)
  ∧ (∀ d, d ∈ get_unstable_patches self
          ↔ d ∈ data_samples self ∧ stable d ≠ Some true)
  ∧ sublist (get_stable_patches self) (data_samples self)
  ∧ sublist (get_unstable_patches self) (data_samples self)
  ∧ get_stable_patches self ++ get_unstable_patches self ≡ₚ data_samples self
  ∧ length (get_stable_patches self) + length (get_unstable_patches self)
    = length (data_samples self).
Proof.
  unfold get_stable_patches, get_unstable_patches.
  split; [|split; [|split; [|split; [|split]]]].
  - intros d. by rewrite elem_of_filter_bool, truthy_true.
  - intros d.
    by rewrite elem_of_filter_bool, negb_true_iff, <- not_true_iff_false, truthy_true.
  - apply filter_bool_sublist.
  - apply filter_bool_sublist.
  - apply filter_bool_partition.
  - rewrite <- length_app. apply Permutation_length, filter_bool_partition.
Qed.

Lemma filter_bool_all {A} (f : A → bool) (l : list A) :
  Forall (fun x => f x = true) l → List.filter f l = l.
Proof.
  induction 1 as [|x l Hx _ IH]; simpl; [done|]. by rewrite Hx, IH.
Qed.

Lemma filter_bool_none {A} (f : A → bool) (l : list A) :
  Forall (fun x => f x = false) l → List.filter f l = [].
Proof.
  induction 1 as [|x l Hx _ IH]; simpl; [done|]. by rewrite Hx, IH.
Qed.

(** C9. Every sample of [extract_data_samples_for_pre_train] has
    [stable = False]; a dataset constructed without a description file has
    no stable patch, and all its samples are unstable patches. *)
Theorem pre_train_dataset_unstable :
  (∀ repository_path,
     ∃ samples counter,
       extract_data_samples_for_pre_train generate_prev_and_updated counter_new
         counter_iadd traverse_single traverse_since_to repository_path
       = Some (samples, counter)
       ∧ Forall (fun d => stable d = Some false) samples)
  ∧ (∀ root linux_repository_filepath,
       ∃ self,
         PatchNetDataset.init generate_prev_and_updated counter_new counter_iadd
           traverse_single traverse_since_to strtobool read_text absolute
           root None linux_repository_filepath
         = Some self
         ∧ Forall (fun d => stable d = Some false) (data_samples self)
         ∧ get_stable_patches self = []
         ∧ get_unstable_patches self = data_samples self).
Proof.
  assert (∀ repository_path,
     ∃ samples counter,
       extract_data_samples_for_pre_train generate_prev_and_updated counter_new
         counter_iadd traverse_single traverse_since_to repository_path
       = Some (samples, counter)
       ∧ Forall (fun d => stable d = Some false) samples) as Hpre.
  { intros repository_path.
    destruct (extract_data_samples_for_pre_train_spec repository_path) as [counter Hrun].
    eexists _, counter. split; [exact Hrun|].
    apply Forall_forall. intros d Hd.
    apply elem_of_pre_train_samples in Hd as (c & _ & Hs).
    by apply pre_train_sample_Some in Hs as (_ & _ & ? & _). }
  split; [exact Hpre|].
  intros root fp.
  destruct (Hpre (absolute <$> fp)) as (samples & counter & Hrun & Hall).
  eexists. unfold PatchNetDataset.init. rewrite Hrun. simpl.
  split; [done|]. split; [done|].
  unfold get_stable_patches, get_unstable_patches. simpl. split.
  - apply filter_bool_none. eapply Forall_impl; [exact Hall|].
    intros d Hd. simpl in Hd. by rewrite Hd.
  - apply filter_bool_all. eapply Forall_impl; [exact Hall|].
    intros d Hd. simpl in Hd. by rewrite Hd.
Qed.

End DatasetFacts.

(** ** The dataset on concrete inputs *)
Section DatasetExamples.
Import Py PatchNetDataset Samples.

Example splitlines_mixed :
  splitlines (str_of "a" ++ [13; 10]%N ++ str_of "b" ++ [10; 10]%N ++ str_of "c" ++ [13]%N)
  = [str_of "a"; str_of "b"; []; str_of "c"].
Proof. reflexivity. Qed.

Example splitlines_empty : splitlines [] = [].
Proof. reflexivity. Qed.

Example split_colon :
  split (str_of "commit: a1") (str_of ": ") = Some [str_of "commit"; str_of "a1"].
Proof. reflexivity. Qed.

Example is_greater_samples :
  map is_greater_than_max_number_of_lines_in_diff mined = [true; false; false].
Proof. vm_compute. reflexivity. Qed.

Example pre_train_samples_idx :
  (fun r => map (fun d => (idx d, commit_hash (commit d), stable d)) r.1) <$> pre_train mined
  = Some [(1, str_of "c1", Some false); (2, str_of "c2", Some false)].
Proof. vm_compute. reflexivity. Qed.

End DatasetExamples.

Lemma pre_train_excludes_long_modify_diffs_witness :
  is_Some (Samples.pre_train Samples.mined).
Proof.
  destruct (pre_train_excludes_long_modify_diffs
              (fun c => (PatchNetDataset.hash c, 1)) 0 Nat.add (fun _ _ => [])
              (fun _ => Samples.mined) None 0 Samples.long_modify eq_refl)
    as (samples & counter & Hrun & _).
  unfold Samples.pre_train. rewrite Hrun. by eexists.
Defined.

(** ** Batch: masks and target fields *)
Section BatchFacts.
Import Torch.





Lemma removelast_take {A} (l : list A) : removelast l = take (length l - 1) l.
Proof.
  destruct l as [|x l _] using rev_ind; [done|].
  rewrite removelast_last, length_app. simpl.
  replace (length l + 1 - 1) with (length l) by lia.
  by rewrite take_app_length.
Qed.

Lemma sum_bool_row (row : list Z) (p : Z) :
  sum_list (map (fun b : bool => if b then 1 else 0)
              (map (fun a => negb (Z.eqb a p)) row))
  = length (filter (fun v => v ≠ p) row).
Proof.
  induction row as [|v row IH]; [done|].
  rewrite filter_cons. cbn [map sum_list_with id]. rewrite IH.
  destruct (Z.eqb_spec v p); destruct (decide (v ≠ p)); try done; by simpl.
Qed.

Lemma sum_bool_ne (y : list (list Z)) (p : Z) :
  sum_bool (ne y p) = length (filter (fun v => v ≠ p) (concat y)).
Proof.
  unfold sum_bool, ne.
  induction y as [|row y IH]; [done|].
  cbn [map concat]. rewrite map_app, sum_list_with_app, filter_app, length_app.
  by rewrite IH, sum_bool_row.
Qed.

(** C3. With a target pair, [trg] is the target without its last time step,
    [trg_y] the target without its first, [ntokens] the number of entries
    of [trg_y] that differ from the pad index; without a target the five
    target fields are [None]. *)
Theorem batch_target_fields (USE_CUDA : bool)
    (src_ : list (list Z) * list Z)
    (diff_alignment_ diff_prev_ diff_updated_ : list (list Z) * list Z) (p : Z) :
  (∀ trg_full trg_lengths,
     let batch := Batch.init USE_CUDA src_ (Some (trg_full, trg_lengths))
                    diff_alignment_ diff_prev_ diff_updated_ p in
     Batch.trg batch = Some ((fun row => take (length row - 1) row) <$> trg_full)
     ∧ Batch.trg_y batch = Some (drop 1 <$> trg_full)
     ∧ Batch.trg_lengths batch = Some trg_lengths
     ∧ Batch.ntokens batch
       = Some (length (filter (fun v => v ≠ p) (concat (drop 1 <$> trg_full)))))
  ∧ (let batch := Batch.init USE_CUDA src_ None
                    diff_alignment_ diff_prev_ diff_updated_ p in
     Batch.trg batch = None ∧ Batch.trg_y batch = None ∧ Batch.trg_mask batch = None
     ∧ Batch.trg_lengths batch = None ∧ Batch.ntokens batch = None).
Proof.
  destruct src_ as [s sl], diff_alignment_ as [da dal], diff_prev_ as [dp dpl],
    diff_updated_ as [du dul].
  unfold Batch.init, cuda. simpl. split.
  - intros trg_full trg_lengths.
    assert (map (fun row => tail row) trg_full = drop 1 <$> trg_full) as Htail.
    { apply list_fmap_ext. intros _ row _. by destruct row. }
    assert (map (fun row => removelast row) trg_full
            = (fun row => take (length row - 1) row) <$> trg_full) as Hlast.
    { apply list_fmap_ext. intros _ row _. apply removelast_take. }
    rewrite Htail, Hlast, sum_bool_ne.
    by destruct USE_CUDA.
  - by destruct USE_CUDA.
Qed.

End BatchFacts.

(** ** Index tensors: gathering rows and inverting a permutation *)
Section IndexFacts.
Import Torch.

Lemma index_select_Some {A} (t t' : list A) (index : list nat) :
  index_select t index = Some t'
  ↔ length t' = length index
    ∧ ∀ i j, index !! i = Some j → is_Some (t !! j) ∧ t' !! i = t !! j.
Proof.
  unfold index_select. rewrite mapM_Some, Forall2_same_length_lookup. split.
  - intros [Hlen Hall]. split; [done|]. intros i j Hj.
    destruct (lookup_lt_is_Some_2 t' i) as [y Hy].
    { rewrite <- Hlen. by eapply lookup_lt_Some. }
    specialize (Hall i j y Hj Hy). rewrite Hall, Hy. eauto.
  - intros [Hlen Hall]. split; [done|]. intros i j y Hj Hy.
    destruct (Hall i j Hj) as [_ <-]. done.
Qed.

Lemma index_select_lookup {A} (t t' : list A) (index : list nat) i :
  index_select t index = Some t' → t' !! i = index !! i ≫= (t !!.).
Proof.
  intros Hsel. apply index_select_Some in Hsel as [Hlen Hall].
  destruct (index !! i) as [j|] eqn:Hj; simpl.
  - by apply Hall.
  - apply lookup_ge_None. rewrite Hlen. by apply lookup_ge_None.
Qed.

Lemma Sorted_le_seq (start len : nat) : Sorted (≤) (seq start len).
Proof.
  revert start. induction len as [|len IH]; intros start; simpl; constructor.
  - apply IH.
  - destruct len; simpl; constructor. lia.
Qed.

Lemma length_argsort (p : list nat) : length (argsort p) = length p.
Proof.
  unfold argsort.
  rewrite length_fmap, (Permutation_length (merge_sort_Permutation _ _)).
  rewrite length_zip_with, length_seq. lia.
Qed.

Instance key_le_total : Total key_le.
Proof. intros [a ?] [b ?]. unfold key_le. simpl. lia. Qed.

(** The sorted keys of a permutation of [0 .. n-1] are [0 .. n-1]. *)
Lemma argsort_keys (p : list nat) :
  p ≡ₚ seq 0 (length p) →
  (merge_sort key_le (zip p (seq 0 (length p)))).*1 = seq 0 (length p).
Proof.
  intros Hperm. apply (Sorted_unique (≤)).
  - apply (Sorted_fmap fst key_le (≤)); [by intros [] []|].
    apply (Sorted_merge_sort key_le).
  - apply Sorted_le_seq.
  - rewrite merge_sort_Permutation, fst_zip by (rewrite length_seq; lia). done.
Qed.

(** On a permutation, [argsort] is the inverse permutation. *)
Lemma argsort_inverse (p : list nat) i j :
  p ≡ₚ seq 0 (length p) → argsort p !! i = Some j → p !! j = Some i.
Proof.
  intros Hperm Hi. unfold argsort in Hi.
  apply list_lookup_fmap_Some in Hi as ([k j'] & -> & Hkj). simpl.
  assert (k = i) as ->.
  { pose proof (f_equal (fun l => l !! i) (argsort_keys p Hperm)) as Hkeys.
    simpl in Hkeys. rewrite list_lookup_fmap, Hkj in Hkeys. simpl in Hkeys.
    symmetry in Hkeys. apply lookup_seq in Hkeys. lia. }
  assert ((i, j') ∈ zip p (seq 0 (length p))) as Hin.
  { rewrite <- (merge_sort_Permutation key_le). by eapply list_elem_of_lookup_2. }
  apply list_elem_of_lookup in Hin as [m Hm].
  apply lookup_zip_with_Some in Hm as (a & b & Heq & Ha & Hb).
  apply lookup_seq in Hb as [-> _]. by simplify_eq/=.
Qed.

Lemma argsort_lookup_lt (p : list nat) i :
  p ≡ₚ seq 0 (length p) → i < length p →
  ∃ j, argsort p !! i = Some j ∧ p !! j = Some i.
Proof.
  intros Hperm Hi.
  destruct (lookup_lt_is_Some_2 (argsort p) i) as [j Hj];
    [by rewrite length_argsort|].
  exists j. split; [done|]. by apply argsort_inverse.
Qed.

(** Gathering by a permutation and then by its [argsort] restores the
    original order. *)
Lemma index_select_argsort {A} (t t' : list A) (p : list nat) :
  p ≡ₚ seq 0 (length t) → index_select t p = Some t' →
  index_select t' (argsort p) = Some t.
Proof.
  intros Hperm Hsel.
  assert (length p = length t) as Hlen.
  { by rewrite (Permutation_length Hperm), length_seq. }
  rewrite <- Hlen in Hperm.
  apply index_select_Some in Hsel as [Hlen' Hall].
  apply index_select_Some. split; [by rewrite length_argsort|].
  intros i j Hj. apply argsort_inverse in Hj as Hji; [|done].
  destruct (Hall j i Hji) as [Hsome Heq].
  rewrite Heq. by split.
Qed.

End IndexFacts.

(** ** Encoder: the sorted call and the final states *)
Section EncoderFacts.
Import Py Torch Encoder.

Lemma mapM_Forall2_ext {A B C} (f : A → option C) (g : B → option C) l k :
  Forall2 (fun a b => f a = g b) l k → mapM f l = mapM g k.
Proof. induction 1 as [|a b l k Hab _ IH]; simpl; [done|]. by rewrite Hab, IH. Qed.

Lemma position_of_argsort (p : list nat) i j :
  p ≡ₚ seq 0 (length p) → argsort p !! i = Some j → position_of i p = Some j.
Proof.
  intros Hperm Hj. apply argsort_inverse in Hj; [|done].
  assert (NoDup p) as Hnodup by (rewrite Hperm; apply NoDup_seq).
  unfold position_of.
  assert (list_find (fun k => k = i) p = Some (j, i)) as ->; [|done].
  apply list_find_Some. split; [done|]. split; [done|].
  intros j' y Hy Hlt ->.
  pose proof (NoDup_lookup p j j' i Hnodup Hj Hy). lia.
Qed.

Lemma restore_order_argsort {A} (p : list nat) (rows : list A) :
  p ≡ₚ seq 0 (length p) → restore_order p rows = index_select rows (argsort p).
Proof.
  intros Hperm. unfold restore_order, index_select.
  apply mapM_Forall2_ext, Forall2_same_length_lookup_2.
  - by rewrite length_seq, length_argsort.
  - intros k i j Hi Hj. apply lookup_seq in Hi as [-> _]. simpl.
    by rewrite (position_of_argsort p k j).
Qed.

Lemma at2_index_select_dim1 {A} (t t' : list (list A)) (index : list nat) l i :
  index_select_dim1 t index = Some t' →
  at2 t' l i = index !! i ≫= at2 t l.
Proof.
  unfold index_select_dim1. rewrite mapM_Some. intros Hall. unfold at2.
  destruct (t !! l) as [layer|] eqn:Hl.
  - destruct (Forall2_lookup_l _ _ _ _ _ Hall Hl) as (layer' & -> & Hsel). simpl.
    rewrite (index_select_lookup _ _ _ i Hsel).
    by destruct (index !! i).
  - assert (t' !! l = None) as ->.
    { apply lookup_ge_None. rewrite <- (Forall2_length _ _ _ Hall).
      by apply lookup_ge_None. }
    by destruct (index !! i).
Qed.

Context {F Packed : Type}.
Context (pack_padded_sequence : list (list (list F)) → list Z → option Packed).
Context (rnn : Packed → option (Packed * (list (list (list F)) * list (list (list F))))).
Context (pad_packed_sequence : Packed → list (list (list F)) * list Z).
Context (torch_sort : list Z → list Z * list nat).

Local Abbreviation forward :=
  (Encoder.forward pack_padded_sequence rnn pad_packed_sequence torch_sort).
Local Abbreviation forward_sorted_reference :=
  (Encoder.forward_sorted_reference pack_padded_sequence rnn pad_packed_sequence
     torch_sort).

(** The [sort=True] branch runs the [sort=False] branch on the gathered
    batch and gathers the results by the [argsort] of the permutation. *)
Lemma forward_sort_unfold x mask lengths :
  forward x mask lengths true
  = x_sorted ← index_select x (torch_sort lengths).2;
    r ← forward x_sorted mask (torch_sort lengths).1 false;
    output ← index_select r.1 (argsort (torch_sort lengths).2);
    h_n ← index_select_dim1 r.2.1 (argsort (torch_sort lengths).2);
    c_n ← index_select_dim1 r.2.2 (argsort (torch_sort lengths).2);
    Some (output, (h_n, c_n)).
Proof.
  unfold Encoder.forward. destruct (torch_sort lengths) as [sl perm]. simpl.
  destruct (index_select x perm) as [xs|]; simpl; [|done].
  destruct (pack_padded_sequence xs sl) as [packed|]; simpl; [|done].
  destruct (rnn packed) as [[o [h c]]|]; simpl; [|done].
  destruct (pad_packed_sequence o) as [out ?].
  destruct (concat_directions h) as [h'|]; simpl; [|done].
  destruct (concat_directions c) as [c'|]; simpl; done.
Qed.

Local Arguments Encoder.forward : simpl never.

(** C1. With [sort=True] the encoder returns what the specification
    describes: the batch sorted by descending length, the [sort=False] path
    run on it, and the rows of the output and the batch dimension of the
    states put back in the original order. Row [i] of every result is the
    row that the sorted run produced at the position [j] where sequence [i]
    of the original batch, with its length, was placed. *)
Theorem forward_sort_restores_order x mask lengths :
  (torch_sort lengths).2 ≡ₚ seq 0 (length x) →
  index_select lengths (torch_sort lengths).2 = Some (torch_sort lengths).1 →
  forward x mask lengths true = forward_sorted_reference x mask lengths
  ∧ ∀ x_sorted out_s h_s c_s out h c,
      index_select x (torch_sort lengths).2 = Some x_sorted →
      forward x_sorted mask (torch_sort lengths).1 false = Some (out_s, (h_s, c_s)) →
      forward x mask lengths true = Some (out, (h, c)) →
      ∀ i, i < length x →
        ∃ j, (torch_sort lengths).2 !! j = Some i
             ∧ x_sorted !! j = x !! i
             ∧ (torch_sort lengths).1 !! j = lengths !! i
             ∧ out !! i = out_s !! j
             ∧ (∀ l, at2 h l i = at2 h_s l j)
             ∧ (∀ l, at2 c l i = at2 c_s l j).
Proof.
  intros Hperm Hlengths.
  assert (length (torch_sort lengths).2 = length x) as Hlen.
  { by rewrite (Permutation_length Hperm), length_seq. }
  assert ((torch_sort lengths).2 ≡ₚ seq 0 (length (torch_sort lengths).2)) as Hperm'.
  { by rewrite Hlen. }
  split.
  - rewrite forward_sort_unfold. unfold Encoder.forward_sorted_reference.
    destruct (torch_sort lengths) as [sl perm]. simpl in *.
    destruct (index_select x perm) as [xs|]; simpl; [|done].
    destruct (forward xs mask sl false) as [[o [h c]]|]; simpl; [|done].
    rewrite restore_order_argsort by done.
    unfold index_select_dim1.
    rewrite !(mapM_ext (restore_order perm) (fun layer => index_select layer (argsort perm)))
      by (intros layer; by apply restore_order_argsort).
    done.
  - intros x_sorted out_s h_s c_s out h c Hsel Hfalse Htrue i Hi.
    rewrite forward_sort_unfold, Hsel in Htrue. simpl in Htrue.
    rewrite Hfalse in Htrue. simpl in Htrue.
    destruct (index_select out_s _) as [out'|] eqn:Hout; simpl in Htrue; [|done].
    destruct (index_select_dim1 h_s _) as [h'|] eqn:Hh; simpl in Htrue; [|done].
    destruct (index_select_dim1 c_s _) as [c'|] eqn:Hc; simpl in Htrue; [|done].
    simplify_eq.
    destruct (argsort_lookup_lt (torch_sort lengths).2 i Hperm') as (j & Hj & Hji);
      [by rewrite Hlen|].
    exists j. split; [done|].
    split; [by rewrite (index_select_lookup _ _ _ j Hsel), Hji|].
    split; [by rewrite (index_select_lookup _ _ _ j Hlengths), Hji|].
    split; [by rewrite (index_select_lookup _ _ _ i Hout), Hj|].
    split; intros l.
    + by rewrite (at2_index_select_dim1 _ _ _ l i Hh), Hj.
    + by rewrite (at2_index_select_dim1 _ _ _ l i Hc), Hj.
Qed.

Lemma at2_shape {A} (t : list (list (list A))) d0 d1 d2 l i :
  has_shape3 t d0 d1 d2 → l < d0 → i < d1 →
  ∃ r, at2 t l i = Some r ∧ length r = d2.
Proof.
  intros [Hd0 Hall] Hl Hi. unfold at2.
  destruct (lookup_lt_is_Some_2 t l) as [m Hm]; [lia|].
  rewrite Hm. simpl.
  destruct (proj1 (Forall_lookup _ _) Hall l m Hm) as [Hd1 Hrows].
  destruct (lookup_lt_is_Some_2 m i) as [r Hr]; [lia|].
  exists r. split; [done|]. by apply (proj1 (Forall_lookup _ _) Hrows i).
Qed.

Lemma at2_cat_dim2 {A} (a b h : list (list (list A))) l i :
  cat_dim2 a b = Some h →
  at2 h l i = (f ← at2 a l i; w ← at2 b l i; Some (f ++ w)).
Proof.
  unfold cat_dim2. case_decide; [|done]. intros [= <-].
  unfold at2. rewrite lookup_zip_with.
  destruct (a !! l) as [r|]; simpl; [|done].
  destruct (b !! l) as [s|]; simpl; [|by destruct (r !! i)].
  by rewrite lookup_zip_with.
Qed.

Lemma at2_concat_directions (raw h : list (list (list F))) l i :
  concat_directions raw = Some h →
  at2 h l i = (f ← at2 raw (2 * l) i; w ← at2 raw (2 * l + 1) i; Some (f ++ w)).
Proof.
  unfold concat_directions. intros Hcat.
  rewrite (at2_cat_dim2 _ _ _ l i Hcat). unfold at2.
  by rewrite lookup_slice_step2, lookup_slice_from1_step2.
Qed.

(** On raw states of shape [[2 L, B, H]] the concatenation succeeds and
    has shape [[L, B, 2 H]]. *)
Lemma concat_directions_shape (raw : list (list (list F))) L B H :
  has_shape3 raw (2 * L) B H →
  ∃ h, concat_directions raw = Some h ∧ has_shape3 h L B (2 * H).
Proof.
  intros [Hd0 Hall]. unfold concat_directions, cat_dim2.
  assert (length (slice_step2 raw) = L) as Hfwd.
  { rewrite length_slice_step2, Hd0.
    replace (2 * L + 1) with (1 + L * 2) by lia.
    by rewrite Nat.div_add. }
  assert (length (slice_from1_step2 raw) = L) as Hbwd.
  { rewrite length_slice_from1_step2, Hd0.
    replace (2 * L) with (L * 2) by lia. by apply Nat.div_mul. }
  assert (∀ l m, slice_step2 raw !! l = Some m
                 → length m = B ∧ Forall (fun r => length r = H) m) as Hf.
  { intros l m. rewrite lookup_slice_step2. apply (proj1 (Forall_lookup _ _) Hall). }
  assert (∀ l m, slice_from1_step2 raw !! l = Some m
                 → length m = B ∧ Forall (fun r => length r = H) m) as Hb.
  { intros l m. rewrite lookup_slice_from1_step2.
    apply (proj1 (Forall_lookup _ _) Hall). }
  rewrite decide_True.
  - eexists. split; [done|]. split.
    + rewrite length_zip_with. lia.
    + apply Forall_lookup. intros l m Hm.
      apply lookup_zip_with_Some in Hm as (r & s & -> & Hr & Hs).
      destruct (Hf l r Hr) as [Hr1 Hr2], (Hb l s Hs) as [Hs1 Hs2].
      split; [rewrite length_zip_with; lia|].
      apply Forall_lookup. intros i row Hrow.
      apply lookup_zip_with_Some in Hrow as (f & w & -> & Hfi & Hwi).
      rewrite length_app.
      rewrite (proj1 (Forall_lookup _ _) Hr2 i f Hfi).
      rewrite (proj1 (Forall_lookup _ _) Hs2 i w Hwi). lia.
  - apply Forall2_same_length_lookup_2; [lia|].
    intros l r s Hr Hs.
    destruct (Hf l r Hr) as [-> _], (Hb l s Hs) as [-> _]. done.
Qed.

Lemma index_select_dim1_shape {A} (t t' : list (list (list A))) index d0 d1 d2 :
  has_shape3 t d0 d1 d2 → index_select_dim1 t index = Some t' →
  has_shape3 t' d0 (length index) d2.
Proof.
  intros [Hd0 Hall]. unfold index_select_dim1. rewrite mapM_Some. intros Hsel.
  split; [by rewrite <- (Forall2_length _ _ _ Hsel)|].
  apply Forall_lookup. intros l m' Hm'.
  destruct (Forall2_lookup_r _ _ _ _ _ Hsel Hm') as (m & Hm & Hrows).
  destruct (proj1 (Forall_lookup _ _) Hall l m Hm) as [_ Hlen].
  apply index_select_Some in Hrows as [Hlen' Hrows]. split; [done|].
  apply Forall_lookup. intros i r Hr.
  destruct (lookup_lt_is_Some_2 index i) as [j Hj].
  { rewrite <- Hlen'. by eapply lookup_lt_Some. }
  destruct (Hrows i j Hj) as [_ Heq]. rewrite Hr in Heq.
  by apply (proj1 (Forall_lookup _ _) Hlen j).
Qed.

(** The entry of a concatenated state, from the raw state of shape
    [[2 L, B, H]]: the forward row [2 l] followed by the backward row
    [2 l + 1]. *)
Lemma concat_directions_entry (raw h : list (list (list F))) L B H l b :
  has_shape3 raw (2 * L) B H → concat_directions raw = Some h → l < L → b < B →
  ∃ f w, at2 raw (2 * l) b = Some f ∧ at2 raw (2 * l + 1) b = Some w
         ∧ length f = H ∧ length w = H ∧ at2 h l b = Some (f ++ w).
Proof.
  intros Hshape Hcat Hl Hb.
  destruct (at2_shape raw _ _ _ (2 * l) b Hshape) as (f & Hf & Hflen); [lia..|].
  destruct (at2_shape raw _ _ _ (2 * l + 1) b Hshape) as (w & Hw & Hwlen); [lia..|].
  exists f, w. repeat (split; [done|]).
  by rewrite (at2_concat_directions raw h l b Hcat), Hf, Hw.
Qed.

(** C4. The final hidden and cell states returned by the encoder, for raw
    LSTM states of shape [[2 L, B, H]], have shape [[L, B, 2 H]]; for layer
    [l] and sequence [b] they hold the forward state (raw row [2 l])
    followed by the backward state (raw row [2 l + 1]) of that sequence,
    which the LSTM saw at position [b'] of its batch. *)
Theorem forward_final_states x mask lengths sort out h c L B H :
  forward x mask lengths sort = Some (out, (h, c)) →
  (sort = true → (torch_sort lengths).2 ≡ₚ seq 0 B) →
  ∃ xs packed out_p h_raw c_raw,
    (if sort then index_select x (torch_sort lengths).2 = Some xs else xs = x)
    ∧ pack_padded_sequence xs (if sort then (torch_sort lengths).1 else lengths)
      = Some packed
    ∧ rnn packed = Some (out_p, (h_raw, c_raw))
    ∧ (has_shape3 h_raw (2 * L) B H → has_shape3 c_raw (2 * L) B H →
       has_shape3 h L B (2 * H) ∧ has_shape3 c L B (2 * H)
       ∧ ∀ l b, l < L → b < B →
           ∃ b' hf hb cf cb,
             (if sort then (torch_sort lengths).2 !! b' = Some b else b' = b)
             ∧ at2 h_raw (2 * l) b' = Some hf ∧ at2 h_raw (2 * l + 1) b' = Some hb
             ∧ at2 c_raw (2 * l) b' = Some cf ∧ at2 c_raw (2 * l + 1) b' = Some cb
             ∧ length hf = H ∧ length hb = H ∧ length cf = H ∧ length cb = H
             ∧ at2 h l b = Some (hf ++ hb) ∧ at2 c l b = Some (cf ++ cb)).
Proof.
  intros Hfwd Hperm. unfold Encoder.forward in Hfwd. destruct sort.
  - specialize (Hperm eq_refl).
    destruct (torch_sort lengths) as [sl perm]. cbn [fst snd] in *.
    destruct (index_select x perm) as [xs|] eqn:Hxs; simpl in Hfwd; [|done].
    destruct (pack_padded_sequence xs sl) as [packed|] eqn:Hpack; simpl in Hfwd; [|done].
    destruct (rnn packed) as [[out_p [h_raw c_raw]]|] eqn:Hrnn; simpl in Hfwd; [|done].
    destruct (pad_packed_sequence out_p) as [out_s out_lens].
    destruct (concat_directions h_raw) as [h_s|] eqn:Hh; simpl in Hfwd; [|done].
    destruct (concat_directions c_raw) as [c_s|] eqn:Hc; simpl in Hfwd; [|done].
    destruct (index_select out_s _) as [out'|]; simpl in Hfwd; [|done].
    destruct (index_select_dim1 h_s _) as [h'|] eqn:Hh'; simpl in Hfwd; [|done].
    destruct (index_select_dim1 c_s _) as [c'|] eqn:Hc'; simpl in Hfwd; [|done].
    simplify_eq.
    exists xs, packed, out_p, h_raw, c_raw. repeat (split; [done|]).
    intros Hhs Hcs.
    assert (length perm = B) as Hlen.
    { by rewrite (Permutation_length Hperm), length_seq. }
    destruct (concat_directions_shape _ _ _ _ Hhs) as (h0 & Hh0 & Hhshape).
    destruct (concat_directions_shape _ _ _ _ Hcs) as (c0 & Hc0 & Hcshape).
    simplify_eq.
    split; [|split].
    + pose proof (index_select_dim1_shape _ _ _ _ _ _ Hhshape Hh') as Hs.
      by rewrite length_argsort in Hs.
    + pose proof (index_select_dim1_shape _ _ _ _ _ _ Hcshape Hc') as Hs.
      by rewrite length_argsort in Hs.
    + intros l b Hl Hb.
      destruct (argsort_lookup_lt perm b) as (b' & Hb' & Hpb); [done..|].
      assert (b' < length perm) as Hlt by (by eapply lookup_lt_Some).
      destruct (concat_directions_entry h_raw h_s L (length perm) H l b')
        as (hf & hb & ? & ? & ? & ? & Hhe); [done..|].
      destruct (concat_directions_entry c_raw c_s L (length perm) H l b')
        as (cf & cb & ? & ? & ? & ? & Hce); [done..|].
      exists b', hf, hb, cf, cb. repeat (split; [done|]).
      rewrite (at2_index_select_dim1 _ _ _ l b Hh'), Hb'.
      rewrite (at2_index_select_dim1 _ _ _ l b Hc'), Hb'. done.
  - clear Hperm.
    destruct (pack_padded_sequence x lengths) as [packed|] eqn:Hpack; simpl in Hfwd; [|done].
    destruct (rnn packed) as [[out_p [h_raw c_raw]]|] eqn:Hrnn; simpl in Hfwd; [|done].
    destruct (pad_packed_sequence out_p) as [out_s out_lens].
    destruct (concat_directions h_raw) as [h_s|] eqn:Hh; simpl in Hfwd; [|done].
    destruct (concat_directions c_raw) as [c_s|] eqn:Hc; simpl in Hfwd; [|done].
    simplify_eq.
    exists x, packed, out_p, h_raw, c_raw. repeat (split; [done|]).
    intros Hhs Hcs.
    destruct (concat_directions_shape _ _ _ _ Hhs) as (h0 & Hh0 & Hhshape).
    destruct (concat_directions_shape _ _ _ _ Hcs) as (c0 & Hc0 & Hcshape).
    simplify_eq.
    split; [done|]. split; [done|].
    intros l b Hl Hb.
    destruct (concat_directions_entry h_raw h L B H l b)
      as (hf & hb & ? & ? & ? & ? & Hhe); [done..|].
    destruct (concat_directions_entry c_raw c L B H l b)
      as (cf & cb & ? & ? & ? & ? & Hce); [done..|].
    exists b, hf, hb, cf, cb. by repeat (split; [done|]).
Qed.

End EncoderFacts.

(** ** The encoder on a concrete batch *)
Section EncoderExamples.
Import Torch Samples.

Example sort_descending_lengths :
  sort_descending embedding_lengths = ([3; 2; 1]%Z, [1; 2; 0]).
Proof. vm_compute. reflexivity. Qed.

Example argsort_of_permutation : argsort [1; 2; 0] = [2; 0; 1].
Proof. vm_compute. reflexivity. Qed.

(** Without sorting the packing step rejects the batch. *)
Example encode_unsorted : encode embeddings [] embedding_lengths false = None.
Proof. vm_compute. reflexivity. Qed.

Example encode_sorted :
  encode embeddings [] embedding_lengths true
  = Some (embeddings,
          ([ [[1; 101]; [2; 102]; [3; 103]] ],
           [ [[1001; 1101]; [1002; 1102]; [1003; 1103]] ])).
Proof. vm_compute. reflexivity. Qed.

End EncoderExamples.

Lemma sample_permutation :
  (Samples.sort_descending Samples.embedding_lengths).2
  ≡ₚ seq 0 (length Samples.embeddings).
Proof. refine (bool_decide_unpack _ _). vm_compute. exact I. Defined.

Lemma forward_sort_restores_order_witness :
  Samples.encode Samples.embeddings [] Samples.embedding_lengths true
  = Encoder.forward_sorted_reference Samples.pack Samples.lstm Samples.unpack
      Samples.sort_descending Samples.embeddings [] Samples.embedding_lengths.
Proof.
  apply (forward_sort_restores_order Samples.pack Samples.lstm Samples.unpack
           Samples.sort_descending Samples.embeddings [] Samples.embedding_lengths).
  - exact sample_permutation.
  - vm_compute. reflexivity.
Defined.

Lemma forward_final_states_witness :
  Torch.has_shape3 [ [[1; 101]; [2; 102]; [3; 103]] ] 1 3 (2 * 1)
  ∧ Torch.has_shape3 [ [[1001; 1101]; [1002; 1102]; [1003; 1103]] ] 1 3 (2 * 1).
Proof.
  destruct (forward_final_states Samples.pack Samples.lstm Samples.unpack
              Samples.sort_descending Samples.embeddings [] Samples.embedding_lengths
              true _ _ _ 1 3 1 eq_refl (fun _ => sample_permutation))
    as (xs & p & out_p & h_raw & c_raw & Hxs & Hpack & Hrnn & Hshape).
  vm_compute in Hxs. injection Hxs as <-.
  vm_compute in Hpack. injection Hpack as <-.
  vm_compute in Hrnn. injection Hrnn as <- <- <-.
  destruct Hshape as (Hh & Hc & _).
  - split; [reflexivity|]. repeat constructor.
  - split; [reflexivity|]. repeat constructor.
  - split; [exact Hh | exact Hc].
Defined.

(** ** The classifier loss: effects of one call *)
Section LossFacts.
Import ClassifierLossCompute.
Context {Tensor Loss Scalar Optimizer World : Type}.
Context (to_float : Tensor → Tensor).
Context (item : Loss → Scalar).
Context (backward : Loss → World → World).
Context (opt_step : Optimizer → World → World).
Context (opt_zero_grad : Optimizer → World → World).

Local Abbreviation call :=
  (ClassifierLossCompute.call to_float item backward opt_step opt_zero_grad).

(** C8. Without an optimizer a call returns the value of
    [criterion(x, y.float())] and leaves the state as it was: no backward
    pass, no optimizer step. With an optimizer the state goes through the
    backward pass, the optimizer step and the clearing of the gradients, in
    that order, and the same value is returned. *)
Theorem classifier_loss_call (crit : Tensor → Tensor → Loss) (o : Optimizer)
    (x y : Tensor) (s : State) :
  let loss := crit x (to_float y) in
  call {| criterion := crit; optimizer := None |} x y s = (item loss, s)
  ∧ call {| criterion := crit; optimizer := Some o |} x y s
    = (item loss,
       {| world := opt_zero_grad o (opt_step o (backward loss (world s)));
          trace := trace s ++ [EvBackward; EvStep; EvZeroGrad] |}).
Proof.
  intros loss. split.
  - reflexivity.
  - unfold ClassifierLossCompute.call, bind, get_loss, ret, effect. simpl.
    by rewrite <- !app_assoc.
Qed.

End LossFacts.

(** ** Accuracy calculation: the configured beam search *)
Section DecodeFacts.
Import Py AccuracyCalculation.
Context {Model Input Score Strength : Type}.
Context (score_le : relation Score) `{!RelDecision score_le}.
Context (extend_score
           : Model → Input → nat → nat → Strength → list nat → nat → Score).
Context (initial_score : Score).

Section SearchFacts.
Context (model : Model) (input : Input).
Context (unk groups : nat) (strength : Strength).
Context (eos vlen k : nat).

Local Abbreviation Partial := (@Partial Score).
Local Abbreviation candidates :=
  (AccuracyCalculation.candidates extend_score model input unk groups strength
     eos vlen).
Local Abbreviation ranked :=
  (AccuracyCalculation.ranked score_le extend_score model input unk groups strength
     eos vlen).
Local Abbreviation beam_step :=
  (AccuracyCalculation.beam_step score_le extend_score model input unk groups
     strength eos vlen k).
Local Abbreviation beam_run :=
  (AccuracyCalculation.beam_run score_le extend_score model input unk groups
     strength eos vlen k).

Lemma finished_true (h : Partial) :
  finished eos h = true ↔ last (tokens h) = Some eos.
Proof. unfold finished. apply bool_decide_eq_true. Qed.

(** A hypothesis that ended in the end token has itself as only candidate;
    any other has one continuation per token of the vocabulary. *)
Lemma candidates_spec (h : Partial) :
  (last (tokens h) = Some eos → candidates h = [h])
  ∧ (last (tokens h) ≠ Some eos →
     candidates h
     = (fun tok => {| tokens := tokens h ++ [tok];
                      score := extend_score model input unk groups strength
                                 (tokens h) tok |}) <$> seq 0 vlen).
Proof.
  unfold AccuracyCalculation.candidates, finished. split; intros Hlast.
  - by rewrite bool_decide_true.
  - by rewrite bool_decide_false.
Qed.

Lemma candidates_started sos m (h h' : Partial) :
  h' ∈ candidates h → started sos m h → started sos (S m) h'.
Proof.
  unfold AccuracyCalculation.candidates, started. intros Hin [Hhead Hlen].
  destruct (finished eos h).
  - apply list_elem_of_singleton in Hin as ->. split; [done|lia].
  - apply list_elem_of_In, in_map_iff in Hin as (tok & <- & _). simpl.
    destruct (tokens h) as [|t ts]; [done|]. simpl in *. split; [done|].
    rewrite length_app. simpl. lia.
Qed.

Lemma candidates_ends_at (h h' : Partial) :
  h' ∈ candidates h → ends_at eos h → ends_at eos h'.
Proof.
  unfold AccuracyCalculation.candidates, ends_at. intros Hin Hends.
  destruct (finished eos h) eqn:Hfin.
  - by apply list_elem_of_singleton in Hin as ->.
  - apply list_elem_of_In, in_map_iff in Hin as (tok & <- & _). simpl.
    rewrite removelast_last. intros Hin.
    destruct (tokens h) as [|t ts] eqn:Htokens using rev_ind;
      [by apply not_elem_of_nil in Hin|].
    rewrite removelast_last in Hends.
    apply elem_of_app in Hin as [Hin|Hin]; [done|].
    apply list_elem_of_singleton in Hin as ->.
    unfold finished in Hfin. rewrite Htokens, last_snoc in Hfin.
    by rewrite bool_decide_true in Hfin.
Qed.

Lemma elem_of_beam_step (beam : list Partial) h' :
  h' ∈ beam_step beam → ∃ h, h ∈ beam ∧ h' ∈ candidates h.
Proof.
  unfold AccuracyCalculation.beam_step, AccuracyCalculation.ranked. intros Hin.
  apply elem_of_take in Hin as (i & Hin & _).
  apply list_elem_of_lookup_2 in Hin.
  rewrite merge_sort_Permutation in Hin.
  apply list_elem_of_bind in Hin as (h & Hh' & Hh). eauto.
Qed.

Lemma beam_run_started sos n :
  ∀ m (beam : list Partial),
    Forall (started sos m) beam →
    Forall (started sos (m + n)) (beam_run n beam).
Proof.
  induction n as [|n IH]; intros m beam Hall; simpl.
  - by rewrite Nat.add_0_r.
  - destruct (forallb (finished eos) beam).
    + eapply Forall_impl; [exact Hall|]. intros h [? ?]. split; [done|lia].
    + replace (m + S n) with (S m + n) by lia. apply IH.
      apply Forall_forall. intros h' Hin.
      apply elem_of_beam_step in Hin as (h & Hh & Hh').
      eapply candidates_started; [exact Hh'|].
      by apply (proj1 (Forall_forall _ _) Hall).
Qed.

Lemma beam_run_ends_at n :
  ∀ beam : list Partial,
    Forall (ends_at eos) beam → Forall (ends_at eos) (beam_run n beam).
Proof.
  induction n as [|n IH]; intros beam Hall; simpl; [done|].
  destruct (forallb (finished eos) beam); [done|].
  apply IH, Forall_forall. intros h' Hin.
  apply elem_of_beam_step in Hin as (h & Hh & Hh').
  eapply candidates_ends_at; [exact Hh'|].
  by apply (proj1 (Forall_forall _ _) Hall).
Qed.

Lemma length_beam_run n :
  ∀ beam : list Partial,
    length beam ≤ max 1 k → length (beam_run n beam) ≤ max 1 k.
Proof.
  induction n as [|n IH]; intros beam Hlen; simpl; [done|].
  destruct (forallb (finished eos) beam); [done|].
  apply IH. unfold AccuracyCalculation.beam_step. rewrite length_take. lia.
Qed.

(** The run is a number of generation steps, one after the other: a step is
    made as long as some hypothesis has not ended and the limit is not
    reached. *)
Lemma beam_run_steps n :
  ∀ beam : list Partial,
    ∃ m, m ≤ n
         ∧ beam_run n beam = Nat.iter m beam_step beam
         ∧ (∀ j, j < m → forallb (finished eos) (Nat.iter j beam_step beam) = false)
         ∧ (m < n → forallb (finished eos) (beam_run n beam) = true).
Proof.
  induction n as [|n IH]; intros beam.
  - exists 0. repeat split; (lia || done).
  - cbn [AccuracyCalculation.beam_run].
    destruct (forallb (finished eos) beam) eqn:Hall.
    + exists 0. split; [lia|]. split; [done|]. split; [lia|done].
    + destruct (IH (beam_step beam)) as (m & Hm & Hrun & Hbusy & Hdone).
      exists (S m). split; [lia|]. split; [by rewrite Nat.iter_succ_r|].
      split.
      * intros [|j] Hj; [done|]. rewrite Nat.iter_succ_r. apply Hbusy. lia.
      * intros Hlt. apply Hdone. lia.
Qed.

(** One step retains the best [k] candidates: what is dropped scores no
    higher than anything retained. *)
Lemma beam_step_top (beam : list Partial) :
  Transitive score_le → Total score_le →
  ∃ dropped,
    beam_step beam ++ dropped ≡ₚ beam ≫= candidates
    ∧ length (beam_step beam) = min k (length (beam ≫= candidates))
    ∧ ∀ a b, a ∈ beam_step beam → b ∈ dropped → score_le (score b) (score a).
Proof.
  intros Htrans Htotal.
  assert (Transitive (better score_le)) as Hbt.
  { intros a b c Hab Hbc. unfold better in *. by transitivity (score b). }
  assert (Total (better score_le)) as Hbtot.
  { intros a b. unfold better. destruct (Htotal (score a) (score b)); auto. }
  exists (drop k (ranked beam)).
  unfold AccuracyCalculation.beam_step. split; [|split].
  - rewrite take_drop. apply merge_sort_Permutation.
  - rewrite length_take. f_equal.
    apply Permutation_length, merge_sort_Permutation.
  - intros a b Ha Hb.
    pose proof (StronglySorted_merge_sort (better score_le) (beam ≫= candidates))
      as Hsorted.
    fold (ranked beam) in Hsorted.
    rewrite <- (take_drop k (ranked beam)) in Hsorted.
    apply StronglySorted_app in Hsorted as (Hall & _ & _).
    by apply (Hall a b).
Qed.

End SearchFacts.

(** C6. The decode method that [AccuracyCalculation] builds is the beam
    search with beam width [BEAM_SIZE] and [TOKENS_CODE_CHUNK_MAX_LEN + 1]
    iterations between the start and end tokens of the target vocabulary.
    A run starts from the start token alone and is a sequence of at most
    that many generation steps, made as long as some hypothesis has not
    ended in the end token. Every step continues each unended hypothesis by
    every token of the vocabulary, keeps the ended ones as they are, and
    retains the [BEAM_SIZE] best of these candidates. Every returned
    hypothesis starts with the start token, holds at most
    [TOKENS_CODE_CHUNK_MAX_LEN + 1] generated tokens and has the end token
    nowhere but at its end. *)
Theorem accuracy_beam_search (model : Model) (target_field : TargetField)
    (config : @Config Strength) (input : Input) :
  Transitive score_le → Total score_le →
  let ac := AccuracyCalculation.init score_le extend_score initial_score
              model target_field config in
  let sos := stoi (vocab target_field) (SOS_TOKEN config) in
  let eos := stoi (vocab target_field) (EOS_TOKEN config) in
  let unk := unk_index (vocab target_field) in
  let vlen := length (itos (vocab target_field)) in
  let k := BEAM_SIZE config in
  let n := TOKENS_CODE_CHUNK_MAX_LEN config + 1 in
  let candidates :=
    AccuracyCalculation.candidates extend_score model input unk (NUM_GROUPS config)
      (DIVERSITY_STRENGTH config) eos vlen in
  let step :=
    AccuracyCalculation.beam_step score_le extend_score model input unk
      (NUM_GROUPS config) (DIVERSITY_STRENGTH config) eos vlen k in
  let start := [{| tokens := [sos]; score := initial_score |}] in
  beam_size_ ac = k
  ∧ beam_search ac
    = create_decode_method score_le extend_score initial_score model n sos eos
        unk vlen k (NUM_GROUPS config) (DIVERSITY_STRENGTH config) false
  ∧ (∃ m, m ≤ n
          ∧ beam_search ac input = Nat.iter m step start
          ∧ (∀ j, j < m →
               ∃ h, h ∈ Nat.iter j step start ∧ last (tokens h) ≠ Some eos)
          ∧ (m < n →
               ∀ h, h ∈ beam_search ac input → last (tokens h) = Some eos))
  ∧ (∀ h : @Partial Score,
       (last (tokens h) = Some eos → candidates h = [h])
       ∧ (last (tokens h) ≠ Some eos →
          candidates h
          = (fun tok =>
               {| tokens := tokens h ++ [tok];
                  score := extend_score model input unk (NUM_GROUPS config)
                             (DIVERSITY_STRENGTH config) (tokens h) tok |})
              <$> seq 0 vlen))
  ∧ (∀ beam : list (@Partial Score),
       ∃ dropped,
         step beam ++ dropped ≡ₚ beam ≫= candidates
         ∧ length (step beam) = min k (length (beam ≫= candidates))
         ∧ ∀ a b, a ∈ step beam → b ∈ dropped → score_le (score b) (score a))
  ∧ length (beam_search ac input) ≤ max 1 k
  ∧ ∀ h, h ∈ beam_search ac input →
         head (tokens h) = Some sos
         ∧ length (tokens h) ≤ 1 + n
         ∧ eos ∉ removelast (tokens h).
Proof.
  intros Htrans Htotal ac sos eos unk vlen k n candidates step start.
  split; [done|]. split; [done|].
  split; [|split; [|split; [|split]]].
  - destruct (beam_run_steps model input unk (NUM_GROUPS config)
                (DIVERSITY_STRENGTH config) eos vlen k n start)
      as (m & Hm & Hrun & Hbusy & Hdone).
    exists m. split; [done|]. split; [exact Hrun|]. split.
    + intros j Hj. specialize (Hbusy j Hj).
      apply not_true_iff_false in Hbusy.
      rewrite forallb_forall in Hbusy.
      destruct (decide (Exists (fun h => last (tokens h) ≠ Some eos)
                          (Nat.iter j step start))) as [Hex|Hnone].
      * apply Exists_exists in Hex as (h & Hin & Hlast). eauto.
      * destruct Hbusy. intros h Hin%list_elem_of_In.
        apply finished_true.
        destruct (decide (last (tokens h) = Some eos)) as [|Hne]; [done|].
        destruct Hnone. apply Exists_exists. eauto.
    + intros Hlt h Hin. specialize (Hdone Hlt).
      rewrite forallb_forall in Hdone.
      by apply finished_true, Hdone, list_elem_of_In.
  - apply candidates_spec.
  - intros beam. by apply beam_step_top.
  - apply length_beam_run. simpl. lia.
  - intros h Hh.
    assert (Forall (started sos (1 + n)) (beam_search ac input)) as Hstarted.
    { apply (beam_run_started model input unk (NUM_GROUPS config)
               (DIVERSITY_STRENGTH config) eos vlen k sos n 1 start).
      by repeat constructor. }
    assert (Forall (ends_at eos) (beam_search ac input)) as Hends.
    { apply (beam_run_ends_at model input unk (NUM_GROUPS config)
               (DIVERSITY_STRENGTH config) eos vlen k n start).
      repeat constructor. unfold ends_at. simpl. apply not_elem_of_nil. }
    destruct (proj1 (Forall_forall _ _) Hstarted h Hh) as [Hhead Hlen].
    split; [done|]. split; [done|].
    by apply (proj1 (Forall_forall _ _) Hends h Hh).
Qed.

End DecodeFacts.

(** ** The beam search on a concrete vocabulary *)
Section DecodeExamples.
Import AccuracyCalculation Samples.

Example accuracy_indices :
  (pad_index accuracy, eos_index_ accuracy, beam_size_ accuracy) = (1, 3, 2).
Proof. vm_compute. reflexivity. Qed.

Example accuracy_decoded :
  map tokens (beam_search accuracy tt) = [[2; 3]; [2; 4; 3]].
Proof. vm_compute. reflexivity. Qed.

End DecodeExamples.

Lemma accuracy_beam_search_witness :
  length (AccuracyCalculation.beam_search Samples.accuracy tt) ≤ 2.
Proof.
  destruct (accuracy_beam_search Z.le Samples.token_score 0%Z tt
              {| AccuracyCalculation.vocab := Samples.vocabulary |}
              Samples.configuration tt _ _)
    as (_ & _ & _ & _ & _ & Hlen & _).
  exact Hlen.
Defined.

(** * Further properties of the sources *)

(** ** The fields of a description line *)
Section FieldFacts.
Import Py PatchNetDataset.

Local Abbreviation sep := [58; 32]%N.

Lemma startswith_nil (s : str) : startswith s [] = true.
Proof. by destruct s. Qed.

Lemma startswith_cons_cons a (p : str) b (s : str) :
  startswith (b :: s) (a :: p) = N.eqb a b && startswith s p.
Proof. reflexivity. Qed.

Lemma startswith_sep_app c (key rest : str) :
  startswith (c :: key) sep = false →
  startswith (c :: key ++ sep ++ rest) sep = false.
Proof.
  rewrite !startswith_cons_cons.
  destruct (N.eqb 58 c); [|done]. rewrite !andb_true_l.
  destruct key as [|b key]; [done|].
  change ((b :: key) ++ sep ++ rest) with (b :: (key ++ sep ++ rest)).
  by rewrite !startswith_cons_cons, !startswith_nil.
Qed.

Lemma contains_cons c (s : str) :
  contains (c :: s) sep = false →
  startswith (c :: s) sep = false ∧ contains s sep = false.
Proof. cbn [contains]. by intros [? ?]%orb_false_elim. Qed.

Lemma split_from_no_sep (s cur : str) :
  contains s sep = false → split_from sep 0 cur s = [rev cur ++ s].
Proof.
  revert cur. induction s as [|c s IH]; intros cur Hno.
  - simpl. by rewrite app_nil_r.
  - apply contains_cons in Hno as [Hhere Hrest].
    cbn [split_from]. rewrite Hhere, IH by done.
    simpl. by rewrite <- app_assoc.
Qed.

Lemma split_from_key (key rest cur : str) :
  contains key sep = false →
  split_from sep 0 cur (key ++ sep ++ rest)
  = (rev cur ++ key) :: split_from sep 0 [] rest.
Proof.
  revert cur. induction key as [|c key IH]; intros cur Hno.
  - simpl. by rewrite startswith_nil, app_nil_r.
  - apply contains_cons in Hno as [Hhere Hrest].
    change ((c :: key) ++ sep ++ rest) with (c :: (key ++ sep ++ rest)).
    cbn [split_from]. rewrite (startswith_sep_app c key rest Hhere), IH by done.
    simpl. by rewrite <- app_assoc.
Qed.

Context (strtobool : str → option bool).

(** A line [key: value] yields its value: the hash as it is, the stable
    flag through [strtobool]. *)
Theorem extract_fields_well_formed (key value other : str) :
  contains key sep = false → contains value sep = false →
  extract_commit_hash_field (key ++ sep ++ value, other) = Some value
  ∧ extract_stable_field strtobool (other, key ++ sep ++ value) = strtobool value.
Proof.
  intros Hkey Hvalue.
  unfold extract_commit_hash_field, extract_stable_field.
  change (str_of ": ") with sep. unfold split. cbn [fst snd].
  rewrite (split_from_key key value [] Hkey).
  rewrite (split_from_no_sep value [] Hvalue). done.
Qed.

(** A line without the separator raises: no field is returned and
    [strtobool] is not consulted. *)
Theorem extract_fields_no_separator (line other : str) :
  contains line sep = false →
  extract_commit_hash_field (line, other) = None
  ∧ extract_stable_field strtobool (other, line) = None.
Proof.
  intros Hline.
  unfold extract_commit_hash_field, extract_stable_field.
  change (str_of ": ") with sep. unfold split. cbn [fst snd].
  by rewrite (split_from_no_sep line [] Hline).
Qed.

(** Only the text between the first and the second separator is returned;
    what follows a second separator is dropped. *)
Theorem extract_fields_second_separator (key value rest other : str) :
  contains key sep = false → contains value sep = false →
  extract_commit_hash_field (key ++ sep ++ value ++ sep ++ rest, other) = Some value
  ∧ extract_stable_field strtobool (other, key ++ sep ++ value ++ sep ++ rest)
    = strtobool value.
Proof.
  intros Hkey Hvalue.
  unfold extract_commit_hash_field, extract_stable_field.
  change (str_of ": ") with sep. unfold split. cbn [fst snd].
  rewrite (split_from_key key (value ++ sep ++ rest) [] Hkey).
  rewrite (split_from_key value rest [] Hvalue). done.
Qed.

End FieldFacts.

(** ** Extraction from a description file and from the mined commits *)
Section ExtractionFacts.
Import Py PatchNetDataset.
Context {PrevUpdated Counter : Type}.
Context (generate_prev_and_updated : PyCommit → PrevUpdated * Counter).
Context (counter_new : Counter) (counter_iadd : Counter → Counter → Counter).
Context (traverse_single : option str → str → list PyCommit).
Context (traverse_since_to : option str → list PyCommit).
Context (strtobool : str → option bool).
Context (read_text : str → option str).

Local Abbreviation DataSample := (@DataSample PrevUpdated Counter).
Local Abbreviation extract_data_samples_loop :=
  (PatchNetDataset.extract_data_samples_loop generate_prev_and_updated counter_iadd
     traverse_single strtobool).
Local Abbreviation extract_data_samples :=
  (PatchNetDataset.extract_data_samples generate_prev_and_updated counter_new
     counter_iadd traverse_single strtobool read_text).
Local Abbreviation pre_train_loop :=
  (PatchNetDataset.pre_train_loop generate_prev_and_updated counter_iadd
     traverse_single).
Local Abbreviation sample_of_pair :=
  (PatchNetDataset.sample_of_pair generate_prev_and_updated traverse_single strtobool).
Local Abbreviation unusable_pair :=
  (PatchNetDataset.unusable_pair traverse_single strtobool).

Lemma extract_data_samples_loop_Some repository_path examples :
  ∀ i acc counter samples counter',
    extract_data_samples_loop repository_path i examples acc counter
    = Some (samples, counter') →
    ∃ new, samples = acc ++ new
           ∧ Forall2 (sample_of_pair repository_path) examples new
           ∧ (idx <$> new) = seq i (length examples).
Proof.
  induction examples as [|e examples IH]; intros i acc counter samples counter' Hrun.
  - simpl in Hrun. injection Hrun as <- <-. exists []. by rewrite app_nil_r.
  - cbn [PatchNetDataset.extract_data_samples_loop] in Hrun.
    destruct (extract_commit_hash_field e) as [h|] eqn:Hh; simpl in Hrun; [|done].
    destruct (extract_stable_field strtobool e) as [st|] eqn:Hst; simpl in Hrun; [|done].
    unfold Commit_init, get_code in Hrun.
    destruct (traverse_single repository_path h !! 0) as [mined|] eqn:Hm;
      simpl in Hrun; [|done].
    apply IH in Hrun as (new & -> & Hall & Hidx).
    eexists (_ :: new). split; [by rewrite <- app_assoc|]. split.
    + constructor; [|done]. unfold PatchNetDataset.sample_of_pair. simpl.
      split; [done|]. split; [done|]. split; [done|]. split; [done|]. eauto.
    + rewrite fmap_cons. cbn [length seq idx]. by rewrite Hidx.
Qed.

(** A description file that is read without error gives one sample per
    pair of lines, numbered consecutively from zero; sample [k] carries the
    hash field of line [2 k], the stable flag of line [2 k + 1] and the code
    of the first commit mined for that hash. *)
Theorem extract_data_samples_numbered description_filepath repository_path
    text samples counter :
  read_text description_filepath = Some text →
  extract_data_samples description_filepath repository_path = Some (samples, counter) →
  length samples = length (splitlines text) / 2
  ∧ ∀ k d, samples !! k = Some d →
      idx d = k
      ∧ ∃ l1 l2, splitlines text !! (2 * k) = Some l1
                 ∧ splitlines text !! (2 * k + 1) = Some l2
                 ∧ sample_of_pair repository_path (l1, l2) d.
Proof.
  intros Hread Hrun. unfold PatchNetDataset.extract_data_samples in Hrun.
  unfold get_examples_text_data in Hrun. rewrite Hread in Hrun. simpl in Hrun.
  apply extract_data_samples_loop_Some in Hrun as (new & -> & Hall & Hidx).
  simpl. split.
  - by rewrite <- (Forall2_length _ _ _ Hall), length_get_examples_text_lines.
  - intros k d Hd. split.
    + pose proof (f_equal (fun l => l !! k) Hidx) as Hk. simpl in Hk.
      rewrite list_lookup_fmap, Hd in Hk. simpl in Hk.
      symmetry in Hk. apply lookup_seq in Hk. lia.
    + destruct (Forall2_lookup_r _ _ _ _ _ Hall Hd) as ([l1 l2] & He & Hpair).
      rewrite lookup_get_examples_text_lines in He.
      destruct (splitlines text !! (2 * k)) as [a|] eqn:Ha; [|done].
      destruct (splitlines text !! (2 * k + 1)) as [b|] eqn:Hb; [|done].
      injection He as -> ->. eauto.
Qed.

Lemma extract_data_samples_loop_None repository_path examples :
  Exists (unusable_pair repository_path) examples →
  ∀ i acc counter,
    extract_data_samples_loop repository_path i examples acc counter = None.
Proof.
  induction examples as [|e examples IH]; intros Hbad i acc counter.
  - by apply Exists_nil in Hbad.
  - cbn [PatchNetDataset.extract_data_samples_loop].
    destruct (extract_commit_hash_field e) as [h|] eqn:Hh; simpl; [|done].
    destruct (extract_stable_field strtobool e) as [st|] eqn:Hst; simpl; [|done].
    unfold Commit_init, get_code.
    destruct (traverse_single repository_path h !! 0) as [mined|] eqn:Hm;
      simpl; [|done].
    apply Exists_cons in Hbad as [Hhere|Hlater]; [|by apply IH].
    destruct Hhere as [Hn|[Hn|(h' & Hh' & Hempty)]]; [congruence..|].
    rewrite Hh in Hh'. injection Hh' as <-. by rewrite Hempty in Hm.
Qed.

(** One unusable pair anywhere in the description file makes the whole
    extraction raise: no partial list of samples is returned. *)
Theorem extract_data_samples_all_or_nothing description_filepath repository_path
    text k l1 l2 :
  read_text description_filepath = Some text →
  splitlines text !! (2 * k) = Some l1 →
  splitlines text !! (2 * k + 1) = Some l2 →
  unusable_pair repository_path (l1, l2) →
  extract_data_samples description_filepath repository_path = None.
Proof.
  intros Hread Hl1 Hl2 Hbad. unfold PatchNetDataset.extract_data_samples.
  unfold get_examples_text_data. rewrite Hread. simpl.
  apply extract_data_samples_loop_None, Exists_exists.
  exists (l1, l2). split; [|done].
  apply list_elem_of_lookup. exists k.
  by rewrite lookup_get_examples_text_lines, Hl1, Hl2.
Qed.

Local Abbreviation kept :=
  (fun c : PyCommit => is_greater_than_max_number_of_lines_in_diff c = false).
Local Abbreviation pre_train_sample :=
  (PatchNetDataset.pre_train_sample generate_prev_and_updated).

Lemma pre_train_loop_counter repository_path commits :
  ∀ i acc counter,
    pre_train_loop repository_path i commits acc counter
    = Some (acc ++ omap (pre_train_sample repository_path)
                     (zip (seq i (length commits)) commits),
            foldl counter_iadd counter
              ((fun c => (generate_prev_and_updated c).2) <$> filter kept commits)).
Proof.
  induction commits as [|c commits IH]; intros i acc counter.
  - simpl. by rewrite app_nil_r.
  - rewrite filter_cons. csimpl.
    unfold PatchNetDataset.pre_train_sample at 1. csimpl.
    destruct (is_greater_than_max_number_of_lines_in_diff c) eqn:Hc; csimpl.
    + apply IH.
    + rewrite IH. by rewrite <- app_assoc.
Qed.

Lemma pre_train_samples_hashes repository_path commits i :
  (fun d : DataSample => commit_hash (commit d))
    <$> omap (pre_train_sample repository_path) (zip (seq i (length commits)) commits)
  = hash <$> filter kept commits.
Proof.
  revert i. induction commits as [|c commits IH]; intros i; [done|].
  rewrite filter_cons. csimpl.
  unfold PatchNetDataset.pre_train_sample at 1. csimpl.
  destruct (is_greater_than_max_number_of_lines_in_diff c) eqn:Hc; csimpl.
  - apply IH.
  - by rewrite IH.
Qed.

Lemma pre_train_samples_positions repository_path commits i :
  StronglySorted lt
    (idx <$> omap (pre_train_sample repository_path)
               (zip (seq i (length commits)) commits))
  ∧ Forall (fun j => i ≤ j < i + length commits)
      (idx <$> omap (pre_train_sample repository_path)
                 (zip (seq i (length commits)) commits)).
Proof.
  revert i. induction commits as [|c commits IH]; intros i.
  - split; constructor.
  - destruct (IH (S i)) as [Hsorted Hbound].
    assert (Forall (fun j => i ≤ j < i + length (c :: commits))
              (idx <$> omap (pre_train_sample repository_path)
                         (zip (seq (S i) (length commits)) commits))) as Hbound'.
    { eapply Forall_impl; [exact Hbound|]. simpl. lia. }
    csimpl.
    destruct (pre_train_sample repository_path (i, c)) as [d|] eqn:Hd;
      [|split; [exact Hsorted | exact Hbound']].
    assert (idx d = i) as Hi.
    { unfold PatchNetDataset.pre_train_sample in Hd. simpl in Hd.
      destruct (is_greater_than_max_number_of_lines_in_diff c); [done|].
      by injection Hd as <-. }
    rewrite fmap_cons, Hi. split.
    + constructor; [done|]. eapply Forall_impl; [exact Hbound|]. simpl. lia.
    + constructor; [simpl; lia|exact Hbound'].
Qed.

(** The pre-training samples are the commits that pass the length filter,
    in mining order; each sample keeps the position its commit had among
    all mined commits: the commit mined at position [idx d] is the commit
    of sample [d], it passed the filter, and the sample holds its hash and
    generated code. The indices therefore increase strictly and may leave
    gaps. *)
Theorem pre_train_samples_in_mining_order repository_path :
  ∃ samples counter,
    extract_data_samples_for_pre_train generate_prev_and_updated counter_new
      counter_iadd traverse_single traverse_since_to repository_path
    = Some (samples, counter)
    ∧ (fun d : DataSample => commit_hash (commit d)) <$> samples
      = hash <$> filter kept (traverse_since_to repository_path)
    ∧ StronglySorted lt (idx <$> samples)
    ∧ Forall (fun d => idx d < length (traverse_since_to repository_path)) samples
    ∧ (∀ d, d ∈ samples →
         ∃ c, traverse_since_to repository_path !! idx d = Some c
              ∧ is_greater_than_max_number_of_lines_in_diff c = false
              ∧ commit d = {| repository := repository_path;
                              commit_hash := hash c;
                              code := generate_prev_and_updated c |}
              ∧ stable d = Some false)
    ∧ (∀ i c, traverse_since_to repository_path !! i = Some c →
         is_greater_than_max_number_of_lines_in_diff c = false →
         ∃ d, d ∈ samples ∧ idx d = i).
Proof.
  unfold extract_data_samples_for_pre_train.
  rewrite pre_train_loop_counter. eexists _, _. split; [done|].
  rewrite app_nil_l. split; [apply pre_train_samples_hashes|].
  destruct (pre_train_samples_positions repository_path
              (traverse_since_to repository_path) 0) as [Hsorted Hbound].
  split; [done|]. split.
  { apply Forall_fmap in Hbound. eapply Forall_impl; [exact Hbound|].
    intros d. simpl. lia. }
  split.
  - intros d Hd.
    apply elem_of_pre_train_samples in Hd as (c & Hc & Hs).
    exists c. split; [done|].
    unfold PatchNetDataset.pre_train_sample in Hs. simpl in Hs.
    destruct (is_greater_than_max_number_of_lines_in_diff c); [done|].
    by injection Hs as <-.
  - intros i c Hc Hkept.
    eexists {| commit := _; stable := Some false; idx := i |}. split; [|done].
    apply elem_of_pre_train_samples. exists c. split; [done|].
    unfold PatchNetDataset.pre_train_sample. simpl. by rewrite Hkept.
Qed.

(** The token counter of the pre-training data adds up the counters of the
    kept commits only, in mining order: a commit dropped by the length
    filter contributes no tokens. *)
Theorem pre_train_counter_of_kept_commits repository_path :
  ∃ samples,
    extract_data_samples_for_pre_train generate_prev_and_updated counter_new
      counter_iadd traverse_single traverse_since_to repository_path
    = Some (samples,
            foldl counter_iadd counter_new
              ((fun c => (generate_prev_and_updated c).2)
                 <$> filter kept (traverse_since_to repository_path))).
Proof.
  unfold extract_data_samples_for_pre_train.
  rewrite pre_train_loop_counter. by eexists.
Qed.

End ExtractionFacts.

(** ** The length filter and the statistics *)
Section FilterFacts.
Import Py PatchNetDataset.

(** Whether a commit is too long depends on its modifications only as a
    multiset, and further modifications never make a long commit short. *)
Theorem is_greater_than_max_order_independent (c c' : PyCommit) :
  modifications c ≡ₚ modifications c' →
  is_greater_than_max_number_of_lines_in_diff c
  = is_greater_than_max_number_of_lines_in_diff c'
  ∧ ∀ more,
      is_greater_than_max_number_of_lines_in_diff c = true →
      is_greater_than_max_number_of_lines_in_diff
        {| hash := hash c'; modifications := modifications c' ++ more |} = true.
Proof.
  intros Hperm.
  assert (∀ a b, modifications a ≡ₚ modifications b →
            is_greater_than_max_number_of_lines_in_diff a = true →
            is_greater_than_max_number_of_lines_in_diff b = true) as Hone.
  { intros a b Hab. rewrite !is_greater_than_max_spec. by rewrite Hab. }
  split.
  - destruct (is_greater_than_max_number_of_lines_in_diff c) eqn:Hc.
    + symmetry. by apply (Hone c c').
    + destruct (is_greater_than_max_number_of_lines_in_diff c') eqn:Hc'; [|done].
      rewrite <- Hc. by apply (Hone c' c).
  - intros more Hlong. apply (Hone c c' Hperm) in Hlong.
    apply is_greater_than_max_spec in Hlong. apply is_greater_than_max_spec.
    cbn [modifications]. rewrite filter_app, fmap_app, sum_list_with_app. lia.
Qed.

Context {PrevUpdated Counter Ratio : Type}.
Context (round4 : nat → nat → Ratio).

(** On an empty dataset [print_statistics] prints the size and then raises
    on the division by it; on any other dataset it prints three lines whose
    stable and unstable counts add up to the size. *)
Theorem print_statistics_lines (self : @PatchNetDataset.t PrevUpdated Counter) :
  let size := length (data_samples self) in
  (data_samples self = [] →
     print_statistics round4 self = ([DatasetSize 0], None))
  ∧ (data_samples self ≠ [] →
     ∃ stable_count unstable_count,
       print_statistics round4 self
       = ([DatasetSize size;
           StableSamples stable_count (round4 stable_count size);
           UnstableSamples unstable_count (round4 unstable_count size)], Some tt)
       ∧ stable_count = length (get_stable_patches self)
       ∧ unstable_count = length (get_unstable_patches self)
       ∧ stable_count + unstable_count = size).
Proof.
  intros size. unfold print_statistics. fold size. split.
  - intros Hempty. subst size. by rewrite Hempty.
  - intros Hne. destruct size as [|n] eqn:Hsize.
    { subst size. by apply length_zero_iff_nil in Hsize. }
    eexists _, _. split; [done|]. split; [done|]. split; [done|].
    unfold get_stable_patches, get_unstable_patches.
    rewrite <- length_app, <- Hsize. subst size.
    apply Permutation_length, filter_bool_partition.
Qed.

End FilterFacts.

(** ** Batch: decoder input against expected output, padding *)
Section BatchShiftFacts.
Import Torch.

Lemma at2_map_tail (t : list (list Z)) b i :
  at2 (map (fun row => tail row) t) b i = at2 t b (S i).
Proof.
  unfold at2. rewrite list_lookup_fmap.
  destruct (t !! b) as [row|]; simpl; [|done]. apply lookup_tail.
Qed.

Lemma at2_map_removelast (t : list (list Z)) b i row :
  t !! b = Some row → S i < length row →
  at2 (map (fun row => removelast row) t) b i = at2 t b i.
Proof.
  intros Hrow Hi. unfold at2. rewrite list_lookup_fmap, Hrow. simpl.
  rewrite removelast_take. apply lookup_take_lt. lia.
Qed.

(** The decoder input [trg] and the expected output [trg_y] are the target
    shifted against itself: both are one step shorter than the target,
    [trg_y] at step [t] is the target at step [t + 1], and [trg] at step
    [t + 1] is [trg_y] at step [t]. *)
Theorem batch_target_shift (USE_CUDA : bool)
    (src_ : list (list Z) * list Z) (trg_full : list (list Z)) (trg_lengths : list Z)
    (diff_alignment_ diff_prev_ diff_updated_ : list (list Z) * list Z) (p : Z) :
  let batch := Batch.init USE_CUDA src_ (Some (trg_full, trg_lengths))
                 diff_alignment_ diff_prev_ diff_updated_ p in
  ∃ tr y,
    Batch.trg batch = Some tr ∧ Batch.trg_y batch = Some y
    ∧ length tr = length trg_full ∧ length y = length trg_full
    ∧ (∀ b row, trg_full !! b = Some row →
         ∃ r1 r2, tr !! b = Some r1 ∧ y !! b = Some r2
                  ∧ length r1 = length row - 1 ∧ length r2 = length row - 1)
    ∧ (∀ b t, at2 y b t = at2 trg_full b (S t))
    ∧ (∀ b t row, trg_full !! b = Some row → S t < length row →
         at2 tr b t = at2 trg_full b t)
    ∧ (∀ b t row, trg_full !! b = Some row → S (S t) < length row →
         at2 tr b (S t) = at2 y b t).
Proof.
  destruct src_ as [s sl], diff_alignment_ as [da dal], diff_prev_ as [dp dpl],
    diff_updated_ as [du dul].
  intros batch. subst batch. unfold Batch.init, cuda. cbn [Batch.trg Batch.trg_y].
  exists (map (fun row => removelast row) trg_full),
         (map (fun row => tail row) trg_full).
  split; [by destruct USE_CUDA|]. split; [by destruct USE_CUDA|].
  split; [apply length_map|]. split; [apply length_map|].
  split; [|split; [|split]].
  - intros b row Hrow. exists (removelast row), (tail row).
    split; [by rewrite list_lookup_fmap, Hrow|].
    split; [by rewrite list_lookup_fmap, Hrow|].
    split.
    + rewrite removelast_take, length_take. lia.
    + destruct row; simpl; lia.
  - intros b t. apply at2_map_tail.
  - intros b t row Hrow Ht. by apply (at2_map_removelast _ _ _ row).
  - intros b t row Hrow Ht.
    rewrite (at2_map_removelast _ _ _ row) by (done || lia).
    by rewrite at2_map_tail.
Qed.

(** [ntokens] never exceeds the number of entries of [trg_y], and it is
    zero exactly when [trg_y] holds nothing but padding. *)
Theorem batch_ntokens_bounds (USE_CUDA : bool)
    (src_ : list (list Z) * list Z) (trg_full : list (list Z)) (trg_lengths : list Z)
    (diff_alignment_ diff_prev_ diff_updated_ : list (list Z) * list Z) (p : Z) :
  let batch := Batch.init USE_CUDA src_ (Some (trg_full, trg_lengths))
                 diff_alignment_ diff_prev_ diff_updated_ p in
  ∃ y n,
    Batch.trg_y batch = Some y ∧ Batch.ntokens batch = Some n
    ∧ n ≤ length (concat y)
    ∧ (n = 0 ↔ Forall (fun v => v = p) (concat y)).
Proof.
  destruct src_ as [s sl], diff_alignment_ as [da dal], diff_prev_ as [dp dpl],
    diff_updated_ as [du dul].
  intros batch. subst batch. unfold Batch.init, cuda.
  cbn [Batch.trg_y Batch.ntokens].
  exists (map (fun row => tail row) trg_full),
         (sum_bool (ne (map (fun row => tail row) trg_full) p)).
  split; [by destruct USE_CUDA|]. split; [done|].
  rewrite sum_bool_ne. split; [apply length_filter|].
  rewrite length_zero_iff_nil. split.
  - intros Hnil. apply Forall_forall. intros v Hv.
    destruct (decide (v = p)) as [|Hne]; [done|].
    assert (v ∈ filter (fun v => v ≠ p) (concat (map (fun row => tail row) trg_full)))
      as Hin by (by apply list_elem_of_filter).
    rewrite Hnil in Hin. by apply not_elem_of_nil in Hin.
  - intros Hall. induction Hall as [|v l Hv _ IH]; [done|].
    rewrite filter_cons. by destruct (decide (v ≠ p)).
Qed.

(** For a source row of real tokens followed by padding, the mask row is
    as many [true] as there are tokens, followed by [false]. *)
Theorem batch_mask_of_padded_row (USE_CUDA : bool)
    (src_ : list (list Z) * list Z) (trg_ : option (list (list Z) * list Z))
    (diff_alignment_ diff_prev_ diff_updated_ : list (list Z) * list Z) (p : Z)
    (b k : nat) (tokens : list Z) :
  src_.1 !! b = Some (tokens ++ replicate k p) →
  Forall (fun v => v ≠ p) tokens →
  Batch.src_mask (Batch.init USE_CUDA src_ trg_ diff_alignment_ diff_prev_
                    diff_updated_ p) !! b
  = Some [replicate (length tokens) true ++ replicate k false].
Proof.
  destruct src_ as [s sl], diff_alignment_ as [da dal], diff_prev_ as [dp dpl],
    diff_updated_ as [du dul].
  simpl. intros Hrow Htokens. unfold cuda, unsqueeze_m2, ne.
  assert (map (fun row => [row]) (map (map (fun a => negb (a =? p)%Z)) s) !! b
          = Some [replicate (length tokens) true ++ replicate k false]) as Hmask.
  { rewrite !list_lookup_fmap, Hrow. simpl. do 2 f_equal.
    rewrite map_app. clear Hrow. f_equal.
    - induction Htokens as [|v l Hv _ IH]; [done|]. simpl.
      by rewrite IH, (proj2 (Z.eqb_neq v p) Hv).
    - induction k as [|k IH]; [done|]. simpl. by rewrite IH, Z.eqb_refl. }
  by destruct USE_CUDA.
Qed.

(** For a rectangular source of [B] rows and [T] columns the source mask
    has shape [[B, 1, T]] and [nseqs] is [B]. *)
Theorem batch_src_mask_shape (USE_CUDA : bool)
    (src_ : list (list Z) * list Z) (trg_ : option (list (list Z) * list Z))
    (diff_alignment_ diff_prev_ diff_updated_ : list (list Z) * list Z) (p : Z)
    (T : nat) :
  Forall (fun row => length row = T) src_.1 →
  let batch := Batch.init USE_CUDA src_ trg_ diff_alignment_ diff_prev_
                 diff_updated_ p in
  has_shape3 (Batch.src_mask batch) (length src_.1) 1 T
  ∧ Batch.nseqs batch = length src_.1.
Proof.
  destruct src_ as [s sl], diff_alignment_ as [da dal], diff_prev_ as [dp dpl],
    diff_updated_ as [du dul].
  simpl. intros Hrect. split; [|done].
  assert (has_shape3 (unsqueeze_m2 (ne s p)) (length s) 1 T) as Hshape.
  { unfold has_shape3, unsqueeze_m2, ne. split; [by rewrite !length_map|].
    apply Forall_lookup. intros i m Hm.
    rewrite !list_lookup_fmap in Hm.
    destruct (s !! i) as [row|] eqn:Hrow; simpl in Hm; [|done].
    injection Hm as <-. split; [done|]. constructor; [|done].
    rewrite length_map. by apply (proj1 (Forall_lookup _ _) Hrect i). }
  by destruct USE_CUDA.
Qed.

End BatchShiftFacts.

(** ** Encoder: gathering, batch size and the concatenated states *)
Section EncoderMoreFacts.
Import Py Torch Encoder.

(** Gathering the rows of a batch by a permutation of its positions
    succeeds, and gathering the result by the [argsort] of the permutation
    gives the batch back. *)
Theorem gather_argsort_round_trip {A} (t : list A) (perm : list nat) :
  perm ≡ₚ seq 0 (length t) →
  ∃ t', index_select t perm = Some t'
        ∧ length t' = length t
        ∧ index_select t' (argsort perm) = Some t.
Proof.
  intros Hperm.
  assert (is_Some (index_select t perm)) as [t' Ht'].
  { apply mapM_is_Some, Forall_forall. intros i Hi. simpl.
    apply lookup_lt_is_Some. rewrite Hperm in Hi.
    apply elem_of_seq in Hi. lia. }
  exists t'. split; [done|]. split.
  - apply index_select_Some in Ht' as [-> _].
    by rewrite (Permutation_length Hperm), length_seq.
  - by apply index_select_argsort.
Qed.

Lemma argsort_seq (n : nat) : argsort (seq 0 n) = seq 0 n.
Proof.
  assert (seq 0 n ≡ₚ seq 0 (length (seq 0 n))) as Hperm by (by rewrite length_seq).
  apply list_eq. intros i.
  destruct (decide (i < n)) as [Hi|Hi].
  - destruct (argsort_lookup_lt (seq 0 n) i Hperm) as (j & Hj & Hji);
      [by rewrite length_seq|].
    rewrite Hj. apply lookup_seq in Hji as [-> _].
    symmetry. by apply lookup_seq.
  - rewrite !(proj2 (lookup_ge_None _ _)); [done|..].
    + rewrite length_seq. lia.
    + rewrite length_argsort, length_seq. lia.
Qed.

Lemma index_select_seq {A} (t : list A) : index_select t (seq 0 (length t)) = Some t.
Proof.
  apply index_select_Some. split; [by rewrite length_seq|].
  intros i j Hj. apply lookup_seq in Hj as [-> Hi]. simpl.
  split; [by apply lookup_lt_is_Some|done].
Qed.

Lemma index_select_dim1_seq {A} (t : list (list A)) n :
  Forall (fun layer => length layer = n) t →
  index_select_dim1 t (seq 0 n) = Some t.
Proof.
  intros Hall. unfold index_select_dim1. apply mapM_Some.
  apply Forall2_same_length_lookup_2; [done|].
  intros i layer layer' Hl Hl'. rewrite Hl in Hl'. injection Hl' as <-.
  rewrite <- (proj1 (Forall_lookup _ _) Hall i layer Hl).
  apply index_select_seq.
Qed.

Context {F Packed : Type}.
Context (pack_padded_sequence : list (list (list F)) → list Z → option Packed).
Context (rnn : Packed → option (Packed * (list (list (list F)) * list (list (list F))))).
Context (pad_packed_sequence : Packed → list (list (list F)) * list Z).
Context (torch_sort : list Z → list Z * list nat).

Local Abbreviation forward :=
  (Encoder.forward pack_padded_sequence rnn pad_packed_sequence torch_sort).

Local Arguments Encoder.forward : simpl never.

(** When the lengths are already in order, so that sorting leaves every
    sequence in its place, the [sort=True] call returns what the
    [sort=False] call returns with [B] rows in the output and in every
    layer of the states. *)
Theorem forward_sort_of_sorted_batch x mask lengths out h c :
  torch_sort lengths = (lengths, seq 0 (length x)) →
  forward x mask lengths false = Some (out, (h, c)) →
  length out = length x →
  Forall (fun layer => length layer = length x) h →
  Forall (fun layer => length layer = length x) c →
  forward x mask lengths true = Some (out, (h, c)).
Proof.
  intros Hsort Hfalse Hout Hh Hc.
  rewrite (forward_sort_unfold pack_padded_sequence rnn pad_packed_sequence torch_sort).
  rewrite Hsort. cbn [fst snd].
  rewrite index_select_seq. simpl. rewrite Hfalse. simpl.
  rewrite argsort_seq. rewrite <- Hout at 1. rewrite index_select_seq. simpl.
  by rewrite (index_select_dim1_seq h), (index_select_dim1_seq c).
Qed.

(** Whatever the library returns for the sorted batch, a [sort=True] call
    that returns has as many output rows, and as many rows in every layer
    of the states, as the sort returned positions. *)
Theorem forward_sort_batch_size x mask lengths out h c :
  forward x mask lengths true = Some (out, (h, c)) →
  length out = length (torch_sort lengths).2
  ∧ Forall (fun layer => length layer = length (torch_sort lengths).2) h
  ∧ Forall (fun layer => length layer = length (torch_sort lengths).2) c.
Proof.
  rewrite (forward_sort_unfold pack_padded_sequence rnn pad_packed_sequence torch_sort).
  intros Hrun.
  destruct (index_select x _) as [xs|]; simpl in Hrun; [|done].
  destruct (forward xs mask _ false) as [[o [hs cs]]|]; simpl in Hrun; [|done].
  destruct (index_select o _) as [out'|] eqn:Hout; simpl in Hrun; [|done].
  destruct (index_select_dim1 hs _) as [h'|] eqn:Hh; simpl in Hrun; [|done].
  destruct (index_select_dim1 cs _) as [c'|] eqn:Hc; simpl in Hrun; [|done].
  simplify_eq.
  assert (∀ (t t' : list (list (list F))) index,
            index_select_dim1 t index = Some t' →
            Forall (fun layer => length layer = length index) t') as Hlayers.
  { intros t t' index Hsel. unfold index_select_dim1 in Hsel.
    apply mapM_Some in Hsel. apply Forall_lookup. intros i layer' Hl'.
    destruct (Forall2_lookup_r _ _ _ _ _ Hsel Hl') as (layer & _ & Hrows).
    by apply index_select_Some in Hrows as [-> _]. }
  split; [|split].
  - apply index_select_Some in Hout as [-> _]. apply length_argsort.
  - rewrite <- (length_argsort (torch_sort lengths).2). by eapply Hlayers.
  - rewrite <- (length_argsort (torch_sort lengths).2). by eapply Hlayers.
Qed.

(** Nothing is lost in the concatenation: the first [H] entries of a
    concatenated state are the forward state, the rest the backward
    state. *)
Theorem concat_directions_split (raw h : list (list (list F))) L B H l b :
  has_shape3 raw (2 * L) B H → concat_directions raw = Some h → l < L → b < B →
  take H <$> at2 h l b = at2 raw (2 * l) b
  ∧ drop H <$> at2 h l b = at2 raw (2 * l + 1) b.
Proof.
  intros Hshape Hcat Hl Hb.
  destruct (concat_directions_entry raw h L B H l b Hshape Hcat Hl Hb)
    as (f & w & -> & -> & Hf & Hw & ->).
  simpl. rewrite <- Hf. by rewrite take_app_length, drop_app_length.
Qed.

End EncoderMoreFacts.

(** ** The classifier loss over the batches of a loop *)
Section LossLoopFacts.
Import ClassifierLossCompute.
Context {Tensor Loss Scalar Optimizer World : Type}.
Context (to_float : Tensor → Tensor).
Context (item : Loss → Scalar).
Context (backward : Loss → World → World).
Context (opt_step : Optimizer → World → World).
Context (opt_zero_grad : Optimizer → World → World).

Local Abbreviation call_each :=
  (ClassifierLossCompute.call_each to_float item backward opt_step opt_zero_grad).

(** Over any number of batches, calls without an optimizer leave the state
    untouched; calls with an optimizer return the same values, take the
    world through backward, step and zero_grad once per batch in batch
    order, and add exactly these three events per batch to the trace. *)
Theorem classifier_loss_call_each (crit : Tensor → Tensor → Loss) (o : Optimizer)
    (batches : list (Tensor * Tensor)) (s : State) :
  let values := (fun b => item (crit b.1 (to_float b.2))) <$> batches in
  call_each {| criterion := crit; optimizer := None |} batches s = (values, s)
  ∧ call_each {| criterion := crit; optimizer := Some o |} batches s
    = (values,
       {| world :=
            foldl (fun w b =>
                     opt_zero_grad o (opt_step o (backward (crit b.1 (to_float b.2)) w)))
              (world s) batches;
          trace :=
            trace s
            ++ mjoin (replicate (length batches) [EvBackward; EvStep; EvZeroGrad]) |}).
Proof.
  intros values. subst values. split.
  - revert s. induction batches as [|[x y] batches IH]; intros s; [done|].
    cbn [ClassifierLossCompute.call_each]. unfold bind at 1.
    change (ClassifierLossCompute.call to_float item backward opt_step opt_zero_grad
              {| criterion := crit; optimizer := None |} x y s)
      with (item (crit x (to_float y)), s).
    unfold bind. rewrite IH. done.
  - revert s. induction batches as [|[x y] batches IH]; intros s.
    + destruct s. simpl. unfold ret. by rewrite app_nil_r.
    + cbn [ClassifierLossCompute.call_each]. unfold bind at 1.
      change (ClassifierLossCompute.call to_float item backward opt_step opt_zero_grad
                {| criterion := crit; optimizer := Some o |} x y s)
        with (item (crit x (to_float y)),
              {| world := opt_zero_grad o (opt_step o (backward (crit x (to_float y))
                                                         (world s)));
                 trace := ((trace s ++ [EvBackward]) ++ [EvStep]) ++ [EvZeroGrad] |}).
      unfold bind. rewrite IH. unfold ret. simpl.
      by rewrite <- !app_assoc.
Qed.

End LossLoopFacts.

(** ** Scripts: inversion of the effect monad *)
Section RunFacts.
Import Run.
Context {World Event : Type}.

Lemma bind_Some {A B} (m : @M World Event A) (k : A → @M World Event B) s b s' :
  bind m k s = (Some b, s') →
  ∃ a s1, m s = (Some a, s1) ∧ k a s1 = (Some b, s').
Proof.
  unfold bind. destruct (m s) as [[a|] s1]; [eauto|done].
Qed.

Lemma lift_Some {A} (e : Event) (f : World → option (A * World)) s a s1 :
  lift e f s = (Some a, s1) →
  ∃ w, f (world s) = Some (a, w) ∧ s1 = {| world := w; trace := trace s ++ [e] |}.
Proof.
  unfold lift. destruct (f (world s)) as [[a' w]|]; [|done].
  intros [= <- <-]. eauto.
Qed.

End RunFacts.

(** ** The training loop *)
Section TrainFacts.
Import Run Train.
Context {World Perplexity : Type}.
Context (run_epoch_train run_epoch_val run_epoch_test
           : World → option (Perplexity * World)).
Context (print_examples : Z → World → option (unit * World)).
Context (model_train model_eval : World → World).
Context (torch_save : World → option (unit * World)).

Local Abbreviation epochs :=
  (Train.epochs run_epoch_train run_epoch_val print_examples model_train model_eval
     torch_save).
Local Abbreviation train :=
  (Train.train run_epoch_train run_epoch_val print_examples model_train model_eval
     torch_save).

Lemma saved_epochs_snoc events e :
  saved_epochs (events ++ [e])
  = saved_epochs events ++ match e with SaveModel epoch => [epoch] | _ => [] end.
Proof.
  unfold saved_epochs. rewrite omap_app. by destruct e.
Qed.

Lemma save_if_due_Some config epoch (s s' : @State World Event) :
  save_if_due torch_save config epoch s = (Some tt, s') →
  SAVE_MODEL_EVERY config ≠ 0%Z
  ∧ saved_epochs (trace s')
    = saved_epochs (trace s)
      ++ filter (fun e => (e mod SAVE_MODEL_EVERY config = 0)%Z) [epoch].
Proof.
  unfold save_if_due. destruct (Z.eqb_spec (SAVE_MODEL_EVERY config) 0) as [|Hk]; [done|].
  rewrite filter_cons, filter_nil.
  destruct (Z.eqb_spec (epoch mod SAVE_MODEL_EVERY config) 0) as [Hdue|Hnot].
  - intros (w & _ & ->)%lift_Some. split; [done|]. simpl.
    rewrite saved_epochs_snoc. by rewrite decide_True.
  - intros [= <-]. split; [done|]. by rewrite decide_False, app_nil_r.
Qed.

Lemma epochs_Some config remaining :
  ∀ epoch tp vp (s : @State World Event) r s',
    epochs config epoch remaining tp vp s = (Some r, s') →
    length r.1 = length tp + remaining
    ∧ length r.2 = length vp + remaining
    ∧ (remaining ≠ 0 → SAVE_MODEL_EVERY config ≠ 0%Z)
    ∧ saved_epochs (trace s')
      = saved_epochs (trace s)
        ++ filter (fun e => (e mod SAVE_MODEL_EVERY config = 0)%Z)
             (seqZ epoch (Z.of_nat remaining)).
Proof.
  induction remaining as [|n IH]; intros epoch tp vp s r s' Hrun.
  - injection Hrun as <- <-. simpl. rewrite app_nil_r. repeat split; (lia || done).
  - cbn [Train.epochs] in Hrun. unfold mode in Hrun.
    apply bind_Some in Hrun as ([] & s1 & (w1 & _ & ->)%lift_Some & Hrun).
    apply bind_Some in Hrun as (p1 & s2 & (w2 & _ & ->)%lift_Some & Hrun).
    apply bind_Some in Hrun as ([] & s3 & (w3 & _ & ->)%lift_Some & Hrun).
    apply bind_Some in Hrun as ([] & s4 & (w4 & _ & ->)%lift_Some & Hrun).
    apply bind_Some in Hrun as (p2 & s5 & (w5 & _ & ->)%lift_Some & Hrun).
    apply bind_Some in Hrun as ([] & s6 & Hsave & Hrun).
    apply save_if_due_Some in Hsave as [Hk Hsaved].
    apply IH in Hrun as (Htp & Hvp & _ & Htrace).
    rewrite length_app in Htp, Hvp. simpl in Htp, Hvp.
    split; [lia|]. split; [lia|]. split; [done|].
    rewrite Htrace, Hsaved. cbn [trace].
    rewrite !saved_epochs_snoc, !app_nil_r, <- app_assoc.
    rewrite (seqZ_cons epoch) by lia. rewrite filter_cons, filter_nil.
    replace (Z.succ epoch) with (epoch + 1)%Z by lia.
    replace (Z.pred (Z.of_nat (S n))) with (Z.of_nat n) by lia.
    rewrite (filter_cons _ epoch). by destruct (decide _).
Qed.

(** A training run that returns gives one training and one validation
    perplexity per epoch; without epochs it returns two empty lists. *)
Theorem train_one_perplexity_per_epoch config (s : @State World Event) tp vp s' :
  train config s = (Some (tp, vp), s') →
  length tp = Z.to_nat (MAX_NUM_OF_EPOCHS config)
  ∧ length vp = Z.to_nat (MAX_NUM_OF_EPOCHS config).
Proof.
  intros Hrun. apply epochs_Some in Hrun as (Htp & Hvp & _). by simpl in *.
Qed.

(** A training run that returns has saved the model after exactly the
    epochs that [SAVE_MODEL_EVERY] divides, in order, the first epoch among
    them. *)
Theorem train_checkpoint_schedule config (s : @State World Event) r s' :
  train config s = (Some r, s') →
  saved_epochs (trace s')
  = saved_epochs (trace s)
    ++ filter (fun e => (e mod SAVE_MODEL_EVERY config = 0)%Z)
         (seqZ 0 (MAX_NUM_OF_EPOCHS config))
  ∧ ((0 < MAX_NUM_OF_EPOCHS config)%Z →
     SAVE_MODEL_EVERY config ≠ 0%Z
     ∧ ∃ later, saved_epochs (trace s') = saved_epochs (trace s) ++ 0%Z :: later).
Proof.
  intros Hrun. apply epochs_Some in Hrun as (_ & _ & Hk & Htrace).
  assert (seqZ 0 (Z.of_nat (Z.to_nat (MAX_NUM_OF_EPOCHS config)))
          = seqZ 0 (MAX_NUM_OF_EPOCHS config)) as Hseq.
  { unfold seqZ. by rewrite Nat2Z.id. }
  rewrite Hseq in Htrace. split; [done|].
  intros Hpos. split; [apply Hk; lia|].
  rewrite Htrace, (seqZ_cons 0) by lia. rewrite filter_cons.
  rewrite decide_True by (by rewrite Zmod_0_l). eauto.
Qed.

(** With [SAVE_MODEL_EVERY = 0] and at least one epoch, a run raises on the
    remainder by zero, and only after the first epoch has been trained and
    validated in full; nothing is saved. *)
Theorem train_save_every_zero config (s : @State World Event) p1 w1 w2 p2 w3 :
  SAVE_MODEL_EVERY config = 0%Z →
  (0 < MAX_NUM_OF_EPOCHS config)%Z →
  run_epoch_train (model_train (world s)) = Some (p1, w1) →
  print_examples (TOKENS_CODE_CHUNK_MAX_LEN config + 10) (model_eval w1) = Some (tt, w2) →
  run_epoch_val w2 = Some (p2, w3) →
  train config s
  = (None,
     {| world := w3;
        trace := trace s ++ [TrainMode; TrainEpoch; EvalMode;
                             PrintExamples (TOKENS_CODE_CHUNK_MAX_LEN config + 10);
                             ValidationEpoch] |}).
Proof.
  intros Hk Hpos Htrain Hprint Hval. unfold Train.train.
  destruct (Z.to_nat (MAX_NUM_OF_EPOCHS config)) as [|n] eqn:Hn; [lia|].
  cbn [Train.epochs]. unfold bind, mode, lift, save_if_due.
  cbn [world trace]. rewrite Htrain. cbn [world trace].
  rewrite Hprint. cbn [world trace]. rewrite Hval, Hk. cbn [world trace Z.eqb raise].
  by rewrite <- !app_assoc.
Qed.

End TrainFacts.

(** ** The analysis script: arguments and order of the evaluation *)
Section AnalyzeFacts.
Import Py Run Analyze.
Context {World Config Model : Type}.
Context (joinpath path_join : str → str → str).
Context (load_config : bool → str → World → option (Config * World)).
Context (torch_load : str → Config → World → option (Model * World)).
Context (test_neural_editor_model : Model → Config → World → option (unit * World)).

Local Abbreviation Event := (@Analyze.Event Config).
Local Abbreviation main :=
  (Analyze.main joinpath path_join load_config torch_load test_neural_editor_model).

(** Without a results directory on the command line, [main] prints the
    usage line and then raises on the missing argument: nothing is loaded
    and the world is as before. *)
Theorem main_without_arguments (argv : list str) (s : @State World Event) :
  length argv ≤ 1 →
  main argv s
  = (None, {| world := world s; trace := trace s ++ [Print usage] |}).
Proof.
  intros Hlen. unfold Analyze.main.
  destruct argv as [|a0 [|a1 argv]]; [done..|simpl in Hlen; lia].
Qed.

(** A run that returns has printed the usage line first exactly when the
    number of arguments was not one or two, and carried on all the same;
    it has loaded the configuration from [config.pkl] in the results
    directory, as a test configuration exactly when the second argument is
    [test]; it has evaluated the neural editor before loading the commit
    message generator, which it does not evaluate. *)
Theorem main_order_of_evaluation (argv : list str) (s s' : @State World Event) :
  main argv s = (Some tt, s') →
  ∃ root config,
    argv !! 1 = Some root
    ∧ trace s'
      = trace s
        ++ (if decide (length argv = 2 ∨ length argv = 3) then [] else [Print usage])
        ++ [LoadConfig (bool_decide (argv !! 2 = Some (str_of "test")))
              (joinpath root (str_of "config.pkl"));
            PPrint config;
            Print neural_editor_banner;
            TorchLoad (path_join root (str_of "model_best_on_validation_neural_editor.pt"));
            TestNeuralEditor;
            Print commit_msg_banner;
            TorchLoad (path_join root
                         (str_of "model_best_on_validation_commit_msg_generator.pt"))].
Proof.
  intros Hrun. unfold Analyze.main in Hrun.
  apply bind_Some in Hrun as ([] & s0 & Husage & Hrun).
  assert (trace s0
          = trace s ++ (if decide (length argv = 2 ∨ length argv = 3)
                        then [] else [Print usage])
          ∧ world s0 = world s) as [Htrace0 Hworld0].
  { destruct (decide (length argv = 2 ∨ length argv = 3)) as [Hlen|Hlen].
    - assert (bool_decide (length argv ≠ 3) && bool_decide (length argv ≠ 2) = false)
        as Hguard by (destruct Hlen as [-> | ->]; by vm_compute).
      rewrite Hguard in Husage. injection Husage as <-. by rewrite app_nil_r.
    - assert (bool_decide (length argv ≠ 3) && bool_decide (length argv ≠ 2) = true)
        as Hguard.
      { apply andb_true_intro. split; apply bool_decide_eq_true; lia. }
      rewrite Hguard in Husage. by injection Husage as <-. }
  apply bind_Some in Hrun as (root & s1 & Hroot & Hrun).
  destruct (argv !! 1) as [root'|] eqn:Hargv; [|done].
  injection Hroot as <- <-.
  assert (bool_decide (2 < length argv)
          && bool_decide (argv !! 2 = Some (str_of "test"))
          = bool_decide (argv !! 2 = Some (str_of "test"))) as Htest.
  { destruct (bool_decide (2 < length argv)) eqn:Hlt; [done|].
    apply bool_decide_eq_false in Hlt. simpl. symmetry.
    apply bool_decide_eq_false. intros Hthird.
    apply lookup_lt_Some in Hthird. lia. }
  rewrite Htest in Hrun.
  apply bind_Some in Hrun as (config & s2 & (w2 & _ & ->)%lift_Some & Hrun).
  unfold print_results in Hrun.
  apply bind_Some in Hrun as ([] & s3 & [= <-] & Hrun).
  apply bind_Some in Hrun as ([] & s4 & [= <-] & Hrun).
  apply bind_Some in Hrun as (editor & s5 & (w5 & _ & ->)%lift_Some & Hrun).
  apply bind_Some in Hrun as ([] & s6 & (w6 & _ & ->)%lift_Some & Hrun).
  apply bind_Some in Hrun as ([] & s7 & [= <-] & Hrun).
  apply bind_Some in Hrun as (generator & s8 & (w8 & _ & ->)%lift_Some & Hrun).
  injection Hrun as <-.
  exists root', config. split; [done|].
  cbn [trace]. rewrite Htrace0. by rewrite <- !app_assoc.
Qed.

End AnalyzeFacts.

(** ** The further properties on concrete inputs *)
Section MoreExamples.
Import Py PatchNetDataset Samples.

Example from_description_samples :
  (fun r => map (fun d => (idx d, commit_hash (commit d), stable d)) r.1)
    <$> from_description description
  = Some [(0, str_of "a1", Some true)].
Proof. vm_compute. reflexivity. Qed.

Example from_broken_description : from_description broken_description = None.
Proof. vm_compute. reflexivity. Qed.

Example run_training_result :
  (fun r => (r.1, Train.saved_epochs (Run.trace r.2))) (run_training training)
  = (Some ([0; 1; 2], [101; 102; 103]), [0; 2]%Z).
Proof. vm_compute. reflexivity. Qed.

Example analyze_test_run :
  (fun r => (r.1, length (Run.trace r.2), head (Run.trace r.2)))
    (analyze [str_of "analyze.py"; str_of "results"; str_of "test"])
  = (Some tt, 7, Some (Analyze.LoadConfig true (str_of "results/config.pkl"))).
Proof. vm_compute. reflexivity. Qed.

(** Surplus arguments: the usage line is printed and the run goes on. *)
Example analyze_surplus_arguments :
  (fun r => (r.1, length (Run.trace r.2), head (Run.trace r.2)))
    (analyze [str_of "analyze.py"; str_of "results"; str_of "no"; str_of "more"])
  = (Some tt, 8, Some (Analyze.Print Analyze.usage)).
Proof. vm_compute. reflexivity. Qed.

End MoreExamples.

Lemma extract_fields_well_formed_witness :
  PatchNetDataset.extract_commit_hash_field
    (Py.str_of "commit" ++ [58; 32]%N ++ Py.str_of "a1", Py.str_of "stable: true")
  = Some (Py.str_of "a1").
Proof.
  apply (extract_fields_well_formed Samples.read_flag (Py.str_of "commit")
           (Py.str_of "a1") (Py.str_of "stable: true")); reflexivity.
Defined.

Lemma extract_fields_no_separator_witness :
  PatchNetDataset.extract_commit_hash_field (Py.str_of "commit b2", Py.str_of "x") = None.
Proof.
  apply (extract_fields_no_separator Samples.read_flag (Py.str_of "commit b2")
           (Py.str_of "x")). reflexivity.
Defined.

Lemma extract_fields_second_separator_witness :
  PatchNetDataset.extract_commit_hash_field
    (Py.str_of "commit" ++ [58; 32]%N ++ Py.str_of "a1" ++ [58; 32]%N
       ++ Py.str_of "note", Py.str_of "x")
  = Some (Py.str_of "a1").
Proof.
  apply (extract_fields_second_separator Samples.read_flag (Py.str_of "commit")
           (Py.str_of "a1") (Py.str_of "note") (Py.str_of "x")); reflexivity.
Defined.

Lemma extract_data_samples_numbered_witness :
  ∃ samples counter,
    Samples.from_description Samples.description = Some (samples, counter)
    ∧ length samples = 1.
Proof.
  destruct (Samples.from_description Samples.description) as [[samples counter]|] eqn:Hrun;
    [|by vm_compute in Hrun].
  exists samples, counter. split; [done|].
  destruct (extract_data_samples_numbered (fun c => (PatchNetDataset.hash c, 1)) 0
              Nat.add Samples.mine_single Samples.read_flag
              (fun _ => Some Samples.description) (Py.str_of "description.txt") None
              Samples.description samples counter eq_refl Hrun) as [Hlen _].
  exact Hlen.
Defined.

Lemma extract_data_samples_all_or_nothing_witness :
  Samples.from_description Samples.broken_description = None.
Proof.
  apply (extract_data_samples_all_or_nothing (fun c => (PatchNetDataset.hash c, 1)) 0
           Nat.add Samples.mine_single Samples.read_flag
           (fun _ => Some Samples.broken_description) (Py.str_of "description.txt") None
           Samples.broken_description 1 (Py.str_of "commit b2")
           (Py.str_of "stable: false")).
  - reflexivity.
  - reflexivity.
  - reflexivity.
  - left. reflexivity.
Defined.

Lemma is_greater_than_max_order_independent_witness :
  PatchNetDataset.is_greater_than_max_number_of_lines_in_diff Samples.long_modify
  = PatchNetDataset.is_greater_than_max_number_of_lines_in_diff
      {| PatchNetDataset.hash := Py.str_of "c0";
         PatchNetDataset.modifications :=
           rev (PatchNetDataset.modifications Samples.long_modify) |}.
Proof.
  apply (is_greater_than_max_order_independent Samples.long_modify
           {| PatchNetDataset.hash := Py.str_of "c0";
              PatchNetDataset.modifications :=
                rev (PatchNetDataset.modifications Samples.long_modify) |}).
  simpl. apply Permutation_rev.
Defined.

Lemma batch_mask_of_padded_row_witness :
  Batch.src_mask (Batch.init false ([[7; 8; 0]; [9; 0; 0]]%Z, [2; 1]%Z) None
                    ([], []) ([], []) ([], []) 0) !! 1
  = Some [[true; false; false]].
Proof.
  apply (batch_mask_of_padded_row false ([[7; 8; 0]; [9; 0; 0]]%Z, [2; 1]%Z) None
           ([], []) ([], []) ([], []) 0%Z 1 2 [9%Z]).
  - reflexivity.
  - repeat constructor. lia.
Defined.

Lemma batch_src_mask_shape_witness :
  Batch.nseqs (Batch.init false ([[7; 8; 0]; [9; 0; 0]]%Z, [2; 1]%Z) None
                 ([], []) ([], []) ([], []) 0) = 2.
Proof.
  apply (batch_src_mask_shape false ([[7; 8; 0]; [9; 0; 0]]%Z, [2; 1]%Z) None
           ([], []) ([], []) ([], []) 0%Z 3).
  repeat constructor.
Defined.

Lemma gather_argsort_round_trip_witness :
  ∃ t', Torch.index_select Samples.embeddings [1; 2; 0] = Some t'
        ∧ length t' = 3
        ∧ Torch.index_select t' (Torch.argsort [1; 2; 0]) = Some Samples.embeddings.
Proof.
  apply (gather_argsort_round_trip Samples.embeddings [1; 2; 0]).
  refine (bool_decide_unpack _ _). vm_compute. exact I.
Defined.

Lemma forward_sort_of_sorted_batch_witness :
  Samples.encode Samples.sorted_embeddings [] Samples.sorted_lengths true
  = Samples.encode Samples.sorted_embeddings [] Samples.sorted_lengths false.
Proof.
  destruct (Samples.encode Samples.sorted_embeddings [] Samples.sorted_lengths false)
    as [[out [h c]]|] eqn:Hfalse; [|by vm_compute in Hfalse].
  apply (forward_sort_of_sorted_batch Samples.pack Samples.lstm Samples.unpack
           Samples.sort_descending Samples.sorted_embeddings [] Samples.sorted_lengths
           out h c).
  - vm_compute. reflexivity.
  - exact Hfalse.
  - vm_compute in Hfalse. by injection Hfalse as <- <- <-.
  - vm_compute in Hfalse. injection Hfalse as <- <- <-. repeat constructor.
  - vm_compute in Hfalse. injection Hfalse as <- <- <-. repeat constructor.
Defined.

Lemma forward_sort_batch_size_witness :
  ∃ out h c,
    Samples.encode Samples.embeddings [] Samples.embedding_lengths true
    = Some (out, (h, c))
    ∧ length out = 3.
Proof.
  destruct (Samples.encode Samples.embeddings [] Samples.embedding_lengths true)
    as [[out [h c]]|] eqn:Htrue; [|by vm_compute in Htrue].
  exists out, h, c. split; [done|].
  destruct (forward_sort_batch_size Samples.pack Samples.lstm Samples.unpack
              Samples.sort_descending Samples.embeddings [] Samples.embedding_lengths
              out h c Htrue) as [Hout _].
  exact Hout.
Defined.

Lemma concat_directions_split_witness :
  take 1 <$> Torch.at2 [ [[1; 101]; [2; 102]; [3; 103]] ] 0 2
  = Torch.at2 [ [[1]; [2]; [3]]; [[101]; [102]; [103]] ] (2 * 0) 2.
Proof.
  apply (concat_directions_split [ [[1]; [2]; [3]]; [[101]; [102]; [103]] ]
           [ [[1; 101]; [2; 102]; [3; 103]] ] 1 3 1 0 2).
  - split; [reflexivity|]. repeat constructor.
  - reflexivity.
  - lia.
  - lia.
Defined.

Lemma train_one_perplexity_per_epoch_witness :
  ∃ tp vp s', Samples.run_training Samples.training = (Some (tp, vp), s')
              ∧ length tp = 3.
Proof.
  destruct (Samples.run_training Samples.training) as [[[tp vp]|] s'] eqn:Hrun;
    [|by vm_compute in Hrun].
  exists tp, vp, s'. split; [done|].
  destruct (train_one_perplexity_per_epoch _ _ _ _ _ _ _ _ _ _ _ Hrun) as [Htp _].
  exact Htp.
Defined.

Lemma train_checkpoint_schedule_witness :
  ∃ r s', Samples.run_training Samples.training = (Some r, s')
          ∧ Train.saved_epochs (Run.trace s') = [0; 2]%Z.
Proof.
  destruct (Samples.run_training Samples.training) as [[r|] s'] eqn:Hrun;
    [|by vm_compute in Hrun].
  exists r, s'. split; [done|].
  destruct (train_checkpoint_schedule _ _ _ _ _ _ _ _ _ _ Hrun) as [Hsaved _].
  exact Hsaved.
Defined.

Lemma train_save_every_zero_witness :
  (Samples.run_training Samples.training_without_period).1 = None.
Proof.
  unfold Samples.run_training.
  rewrite (train_save_every_zero (fun w : nat => Some (w, S w))
             (fun w => Some (w + 100, w)) (fun _ w => Some (tt, w))
             (fun w => w) (fun w => w) (fun w => Some (tt, w))
             Samples.training_without_period
             {| Run.world := 0; Run.trace := [] |} 0 1 1 101 1);
    [reflexivity | reflexivity | reflexivity | reflexivity | reflexivity | reflexivity].
Defined.

Lemma main_without_arguments_witness :
  (Samples.analyze [Py.str_of "analyze.py"]).1 = None.
Proof.
  unfold Samples.analyze.
  rewrite (main_without_arguments Samples.slash Samples.slash
             (fun is_test _ w => Some (is_test, w)) (fun path _ w => Some (path, w))
             (fun _ _ w => Some (tt, w)) [Py.str_of "analyze.py"]
             {| Run.world := tt; Run.trace := [] |}); [reflexivity|].
  simpl. lia.
Defined.

Lemma main_order_of_evaluation_witness :
  ∃ s', Samples.analyze [Py.str_of "analyze.py"; Py.str_of "results"; Py.str_of "test"]
        = (Some tt, s')
        ∧ length (Run.trace s') = 7.
Proof.
  destruct (Samples.analyze
              [Py.str_of "analyze.py"; Py.str_of "results"; Py.str_of "test"])
    as [[[]|] s'] eqn:Hrun; [|by vm_compute in Hrun].
  exists s'. split; [done|].
  destruct (main_order_of_evaluation Samples.slash Samples.slash
              (fun is_test _ w => Some (is_test, w)) (fun path _ w => Some (path, w))
              (fun _ _ w => Some (tt, w))
              [Py.str_of "analyze.py"; Py.str_of "results"; Py.str_of "test"]
              {| Run.world := tt; Run.trace := [] |} s' Hrun)
    as (root & config & _ & ->).
  reflexivity.
Defined.
